(** * NYC street data extraction: spatial filter and SVG projection

    A shallow embedding of [extract_street_data.py].

    Conventions of the embedding.
    - Python floats are read as exact rationals ([Q]); equality of
      computed numbers is [Qeq] ([==]).
    - A GeoDataFrame is a record of its CRS, the dtype names of its
      attribute columns and its rows; every row carries its index label,
      the cell of the geometry column and the cells of the attribute
      columns.
    - GeoDataFrames are Python objects: they live in a store and are
      passed around by reference, so that an in-place column assignment
      is seen through every alias.
    - shapely, pyproj and the formatting of values are libraries, not code
      of this program: [buffer], [intersects], [centroid] and [py_str]
      are variables of the development; the file system, the geocoder and
      the CRS transformer are fields of a [World]. *)

From Stdlib Require Import QArith Qminmax Lqa ZArith List String Ascii Lia.
From stdpp Require Import list.
Import ListNotations.

Local Open Scope string_scope.
Local Open Scope list_scope.

(** ** Geometry *)

Definition coord : Type := (Q * Q)%type.

Definition ring : Type := list coord.

Inductive geometry : Type :=
| LineString (coords : list coord)
| MultiLineString (lines : list (list coord))
| Polygon (exterior : ring) (interiors : list ring)
| MultiPolygon (polys : list (ring * list ring))
| Point (p : coord)
| MultiPoint (ps : list coord).

(** [geom.geom_type], the string pandas shows in [gdf.geometry.type]. *)
Definition geom_type (g : geometry) : string :=
  match g with
  | LineString _ => "LineString"
  | MultiLineString _ => "MultiLineString"
  | Polygon _ _ => "Polygon"
  | MultiPolygon _ => "MultiPolygon"
  | Point _ => "Point"
  | MultiPoint _ => "MultiPoint"
  end.

(** ** Data frames *)

(** A cell of a data frame; pandas columns are dynamically typed. *)
Inductive value : Type :=
| VGeom (g : geometry)
| VStr (s : string)
| VInt (z : Z)
| VFloat (q : Q)
| VTimestamp (ns : Z)
| VNone.

Record Feature : Type := mkFeature {
  label : Z;              (* index label of the row *)
  geom : value;           (* cell of the geometry column *)
  attrs : list value      (* cells of the attribute columns, by position *)
}.

Record CRS : Type := mkCRS {
  crs_name : string;
  is_geographic : bool;
  is_projected : bool
}.

Record GeoDataFrame : Type := mkGDF {
  crs : option CRS;
  dtypes : list (string * string);   (* attribute columns: name, dtype.name *)
  rows : list Feature
}.

(** [gdf.geometry], row by row; [None] is a missing geometry. *)
Definition shape (f : Feature) : option geometry :=
  match geom f with
  | VGeom g => Some g
  | _ => None
  end.

Definition geometries (gdf : GeoDataFrame) : list (option geometry) :=
  map shape (rows gdf).

Definition with_rows (gdf : GeoDataFrame) (rs : list Feature) : GeoDataFrame :=
  {| crs := crs gdf; dtypes := dtypes gdf; rows := rs |}.

(** [gdf[mask]]: boolean indexing keeps the rows whose mask entry is True,
    in the order of the frame, with their index labels. *)
Fixpoint select_mask {A : Type} (l : list A) (mask : list bool) : list A :=
  match l, mask with
  | x :: l', b :: mask' =>
      if b then x :: select_mask l' mask' else select_mask l' mask'
  | _, _ => []
  end.

Definition getitem_mask (gdf : GeoDataFrame) (mask : list bool) : GeoDataFrame :=
  with_rows gdf (select_mask (rows gdf) mask).

Definition empty (gdf : GeoDataFrame) : bool :=
  match rows gdf with [] => true | _ => false end.

(** ** Exceptions *)

Inductive exn : Type := Exn (class : string) (msg : string).

Inductive result (A : Type) : Type :=
| Ok (a : A)
| Raise (e : exn).
Arguments Ok {A} a.
Arguments Raise {A} e.

(** ** The outside world of [extract_street_data] *)

Inductive geocode_reply : Type :=
| Located (lon lat : Q)     (* a location *)
| NoMatch                   (* geocode returned None *)
| GeocodeError (msg : string).   (* geocode raised *)

Record World : Type := mkWorld {
  base_dir : string;
  path_exists : string -> bool;
  read_file : string -> GeoDataFrame;
  (* reply of the i-th call of [geolocator.geocode address] *)
  geocode : string -> nat -> geocode_reply;
  (* [Transformer.from_crs("EPSG:4326", crs, always_xy=True).transform];
     [None] when pyproj refuses the CRS *)
  from_crs : option CRS -> option (coord -> coord)
}.

Definition MILES_TO_METERS : Q := 1609.34%Q.

Definition data_path (w : World) (data_type : string) : string :=
  if String.eqb data_type "traffic"
  then base_dir w ++ "/Centerline_20250522/geo_export_afeb978c-bd19-430e-9999-6417824a9aae.shp"
  else base_dir w ++ "/NYC Planimetric Database_ Sidewalk_20250523v2/geo_export_e1ca140e-1b37-4130-a4f9-9d5ed9ff9446.shp".

(** The geocoding loop: [for i in range(3)], leaving at the first
    location; a reply of None and an exception both leave [location]
    at None. *)
Fixpoint geocode_loop (w : World) (address : string) (attempts : list nat)
  : option coord :=
  match attempts with
  | [] => None
  | i :: rest =>
      match geocode w address i with
      | Located lon lat => Some (lon, lat)
      | NoMatch => geocode_loop w address rest
      | GeocodeError _ => geocode_loop w address rest
      end
  end.

Section StreetData.

(** shapely: the type of the buffer polygon, [point.buffer(r)] and
    [geom.intersects(other)]. *)
Variable region : Type.
Variable buffer : coord -> Q -> region.
Variable intersects : geometry -> region -> bool.

(** [gdf.geometry.intersects(buffer)], row by row: a missing geometry
    intersects nothing. *)
Definition hits (buf : region) (f : Feature) : bool :=
  match shape f with
  | Some g => intersects g buf
  | None => false
  end.

(** Line 90: [gdf[gdf.geometry.intersects(buffer)]]. *)
Definition spatial_filter (gdf : GeoDataFrame) (buf : region) : GeoDataFrame :=
  getitem_mask gdf (map (hits buf) (rows gdf)).

(** Lines 79-87: the buffer, by the CRS of the frame.  A frame without
    CRS fails the test [gdf.crs and gdf.crs.is_geographic] and takes
    the [else] branch as well. *)
Definition search_region (w : World) (gdf : GeoDataFrame) (point : coord)
    (radius_meters : Q) : result region :=
  if match crs gdf with Some c => is_geographic c | None => false end
  then Ok (buffer point (radius_meters / 111000))
  else match from_crs w (crs gdf) with
       | Some project => Ok (buffer (project point) radius_meters)
       | None => Raise (Exn "CRSError" "Invalid projection")
       end.

(** Lines 31-94.  What the function prints on its way is left out. *)
Definition extract_street_data (w : World) (address : string)
    (radius_miles : Q) (data_type : string) : result GeoDataFrame :=
  let radius_meters := (radius_miles * MILES_TO_METERS)%Q in
  let path := data_path w data_type in
  if negb (path_exists w path)
  then Raise (Exn "FileNotFoundError" ("Data file not found: " ++ path))
  else
    let gdf := read_file w path in
    match geocode_loop w address (seq 0 3) with
    | None => Raise (Exn "ValueError" ("Could not find address: " ++ address))
    | Some point =>
        match search_region w gdf point radius_meters with
        | Raise e => Raise e
        | Ok buf => Ok (spatial_filter gdf buf)
        end
    end.

End StreetData.

(** ** Canvas geometry *)

Local Open Scope Q_scope.

Record bbox : Type := mkBox { minx : Q; miny : Q; maxx : Q; maxy : Q }.

Definition grow (b : bbox) (p : coord) : bbox :=
  {| minx := Qmin (minx b) (fst p); miny := Qmin (miny b) (snd p);
     maxx := Qmax (maxx b) (fst p); maxy := Qmax (maxy b) (snd p) |}.

(** The coordinates that bound a geometry: for a polygon its shell. *)
Definition geom_coords (g : geometry) : list coord :=
  match g with
  | LineString cs => cs
  | MultiLineString ls => concat ls
  | Polygon ext _ => ext
  | MultiPolygon ps => concat (map fst ps)
  | Point p => [p]
  | MultiPoint ps => ps
  end.

Definition bounds_of (cs : list coord) : option bbox :=
  match cs with
  | [] => None
  | p :: rest => Some (fold_left grow rest (mkBox (fst p) (snd p) (fst p) (snd p)))
  end.

(** [gdf.total_bounds]; [None] stands for the all-NaN answer on a frame
    without a single coordinate. *)
Definition total_bounds (gs : list geometry) : option bbox :=
  bounds_of (concat (map geom_coords gs)).

Definition width (b : bbox) : Q := maxx b - minx b.
Definition height (b : bbox) : Q := maxy b - miny b.

(** Python's [min(a, b)]: [b] only when [b < a]. *)
Definition py_min (a b : Q) : Q :=
  match b ?= a with
  | Lt => b
  | _ => a
  end.

Definition svg_width : Q := 1000.
Definition svg_height : Q := 1000.
Definition margin : Q := 40.

Definition canvas_scale (b : bbox) : Q :=
  let scale_x := (svg_width - 2 * margin) / width b in
  let scale_y := (svg_height - 2 * margin) / height b in
  py_min scale_x scale_y.

(** The closure [transform_coords] over [minx], [maxy] and [scale]. *)
Definition transform_coords (b : bbox) (scale : Q) (p : coord) : coord :=
  let svg_x := (fst p - minx b) * scale + margin in
  let svg_y := (maxy b - snd p) * scale + margin in
  (svg_x, svg_y).

(** [shapely.affinity.translate]: every coordinate of the geometry, holes
    included, is shifted. *)
Definition shift (xoff yoff : Q) (p : coord) : coord :=
  (fst p + xoff, snd p + yoff).

Definition translate (g : geometry) (xoff yoff : Q) : geometry :=
  let mv := map (shift xoff yoff) in
  match g with
  | LineString cs => LineString (mv cs)
  | MultiLineString ls => MultiLineString (map mv ls)
  | Polygon ext ints => Polygon (mv ext) (map mv ints)
  | MultiPolygon ps => MultiPolygon (map (fun p => (mv (fst p), map mv (snd p))) ps)
  | Point p => Point (shift xoff yoff p)
  | MultiPoint ps => MultiPoint (mv ps)
  end.

(** The square of the distance between two points. *)
Definition dist2 (p q : coord) : Q :=
  (fst p - fst q) * (fst p - fst q) + (snd p - snd q) * (snd p - snd q).

(** Equality of computed coordinates and of geometries, up to the
    representation of the rationals. *)
Definition same_point (p q : coord) : Prop :=
  fst p == fst q /\ snd p == snd q.

Definition same_coords (a b : list coord) : Prop := Forall2 same_point a b.

Definition same_geometry (g h : geometry) : Prop :=
  match g, h with
  | LineString a, LineString b => same_coords a b
  | MultiLineString a, MultiLineString b => Forall2 same_coords a b
  | Polygon e i, Polygon e' i' => same_coords e e' /\ Forall2 same_coords i i'
  | MultiPolygon a, MultiPolygon b =>
      Forall2 (fun p q => same_coords (fst p) (fst q)
                          /\ Forall2 same_coords (snd p) (snd q)) a b
  | Point p, Point q => same_point p q
  | MultiPoint a, MultiPoint b => same_coords a b
  | _, _ => False
  end.

(** A point within a box. *)
Definition inside (b : bbox) (p : coord) : Prop :=
  minx b <= fst p /\ fst p <= maxx b /\ miny b <= snd p /\ snd p <= maxy b.

(** A box that contains another one. *)
Definition covers (b b0 : bbox) : Prop :=
  minx b <= minx b0 /\ maxx b0 <= maxx b /\ miny b <= miny b0 /\ maxy b0 <= maxy b.

(** [np.mean]. *)
Definition mean (xs : list Q) : Q :=
  fold_right Qplus 0 xs / inject_Z (Z.of_nat (length xs)).

(** ** The drawing *)

Record polyline : Type := mkPolyline {
  points : list coord;
  stroke : string;
  stroke_width : Z;
  fill : string
}.

Definition draw_line (T : coord -> coord) (line_width : Z) (cs : list coord)
  : list polyline :=
  let coords := map T cs in
  if (1 <? length coords)%nat
  then [mkPolyline coords "blue" line_width "none"]
  else [].

Definition draw_ring (T : coord -> coord) (line_width : Z) (ext : ring)
  : list polyline :=
  [mkPolyline (map T ext) "blue" line_width "none"].

(** The body of the drawing loop for one row. *)
Definition draw_geometry (T : coord -> coord) (line_width : Z) (g : geometry)
  : list polyline :=
  match g with
  | LineString cs => draw_line T line_width cs
  | MultiLineString ls => flat_map (draw_line T line_width) ls
  | Polygon ext _ => draw_ring T line_width ext
  | MultiPolygon ps => flat_map (fun p => draw_ring T line_width (fst p)) ps
  | Point _ => []
  | MultiPoint _ => []
  end.

Record Drawing : Type := mkDrawing {
  dwg_size : Q * Q;
  elements : list polyline
}.

Local Close Scope Q_scope.

(** ** Strings *)

(** The line feed that starts some of the messages of [main]. *)
Definition nl : string := String (ascii_of_nat 10) EmptyString.

(** [s.replace(old, new)] for a non-empty [old]: every occurrence, left
    to right, without overlap.  [skip] counts the characters of a match
    still to be dropped. *)
Fixpoint replace_from (old new : string) (skip : nat) (s : string) : string :=
  match s with
  | EmptyString => EmptyString
  | String c s' =>
      match skip with
      | S k => replace_from old new k s'
      | O =>
          if String.prefix old s
          then (new ++ replace_from old new (String.length old - 1) s')%string
          else String c (replace_from old new 0 s')
      end
  end.

Definition str_replace (old new s : string) : string := replace_from old new 0 s.

(** ** The store, the outputs and the monad of the export functions *)

(** Addresses of the store. *)
Abbreviation loc := nat.

Inductive event : Type :=
| Printed (msg : string)
| HtmlSaved (path : string) (geojson : GeoDataFrame)   (* [m.save(path)] *)
| BrowserOpened (url : string)
| SvgSaved (path : string) (dwg : Drawing).            (* [dwg.save()] *)

Record State : Type := mkState {
  heap : list GeoDataFrame;      (* the GeoDataFrame objects, by address *)
  out : list event;              (* what was printed and written, oldest first *)
  local_gdf : loc                (* the variable [gdf] of the running [export_to_svg] *)
}.

Definition set_heap (s : State) (h : list GeoDataFrame) : State :=
  {| heap := h; out := out s; local_gdf := local_gdf s |}.

Definition M (A : Type) : Type := State -> result A * State.

Definition ret {A : Type} (a : A) : M A := fun s => (Ok a, s).

Definition bind {A B : Type} (m : M A) (k : A -> M B) : M B :=
  fun s =>
    match m s with
    | (Ok a, s') => k a s'
    | (Raise e, s') => (Raise e, s')
    end.

Definition raise {A : Type} (e : exn) : M A := fun s => (Raise e, s).

(** [try: body except Exception as e: handler]; what the body did to
    the state before raising stays done. *)
Definition try_except {A : Type} (body : M A) (handler : exn -> M A) : M A :=
  fun s =>
    match body s with
    | (Ok a, s') => (Ok a, s')
    | (Raise e, s') => handler e s'
    end.

Declare Scope py_scope.
Delimit Scope py_scope with py.
Notation "x <- c ;; k" := (bind c (fun x => k))
  (at level 100, c at next level, right associativity) : py_scope.
Notation "c ;; k" := (bind c (fun _ => k))
  (at level 100, right associativity) : py_scope.
Local Open Scope py_scope.

Definition emit (e : event) : M unit :=
  fun s => (Ok tt, {| heap := heap s; out := out s ++ [e]; local_gdf := local_gdf s |}).

Definition print (msg : string) : M unit := emit (Printed msg).

(** Reading through a reference.  Python has no dangling reference; an
    address outside the store is an error of the embedding. *)
Definition load (l : loc) : M GeoDataFrame :=
  fun s =>
    match heap s !! l with
    | Some gdf => (Ok gdf, s)
    | None => (Raise (Exn "SystemError" "dangling reference"), s)
    end.

(** Assignment into the object at [l]: every alias sees it. *)
Definition store (l : loc) (gdf : GeoDataFrame) : M unit :=
  fun s => (Ok tt, set_heap s (<[l := gdf]> (heap s))).

(** A new GeoDataFrame object. *)
Definition alloc (gdf : GeoDataFrame) : M loc :=
  fun s => (Ok (length (heap s)), set_heap s (heap s ++ [gdf])).

Definition get_gdf : M loc := fun s => (Ok (local_gdf s), s).

Definition set_gdf (l : loc) : M unit :=
  fun s => (Ok tt, {| heap := heap s; out := out s; local_gdf := l |}).

(** The documents written, in order. *)
Definition html_exports (evs : list event) : list (string * GeoDataFrame) :=
  flat_map (fun e => match e with HtmlSaved p g => [(p, g)] | _ => [] end) evs.

Definition svg_exports (evs : list event) : list (string * Drawing) :=
  flat_map (fun e => match e with SvgSaved p d => [(p, d)] | _ => [] end) evs.

(** Program points of the export functions at which a library call can
    raise. *)
Inductive site : Type :=
| InTypeFilter    (* line 154, before [gdf] is rebound *)
| InBounds        (* lines 160-173 *)
| InSpacing       (* lines 177-187 *)
| InRescale       (* lines 191-197 *)
| InDrawing       (* lines 205-227 *)
| InSvgSave       (* line 230 *)
| InHtmlSave.     (* line 119 *)

Definition exn_msg (e : exn) : string :=
  match e with Exn _ msg => msg end.

Definition is_pedestrian (data_type : string) : bool :=
  String.eqb data_type "pedestrian".

Definition drawable (og : option geometry) : bool :=
  match og with
  | Some g =>
      existsb (String.eqb (geom_type g))
        ["LineString"; "MultiLineString"; "Polygon"; "MultiPolygon"]
  | None => false
  end.

Definition set_geom (f : Feature) (g : geometry) : Feature :=
  {| label := label f; geom := VGeom g; attrs := attrs f |}.

(** Line 154: only the rows of a kind the drawing loop knows. *)
Definition keep_drawable (gdf : GeoDataFrame) : GeoDataFrame :=
  getitem_mask gdf (map drawable (geometries gdf)).

(** [gdf.geometry = new_geometries]. *)
Definition set_geometry (gdf : GeoDataFrame) (gs : list geometry) : GeoDataFrame :=
  with_rows gdf (zip_with set_geom (rows gdf) gs).

(** The geometries a loop over [gdf.geometry] sees, missing ones apart. *)
Definition shapes (gdf : GeoDataFrame) : list geometry :=
  omap shape (rows gdf).

(** The columns of a frame, as [for col in gdf.columns] meets them. *)
Inductive column : Type :=
| AttrColumn (i : nat)
| GeometryColumn.

Definition columns (gdf : GeoDataFrame) : list column :=
  map AttrColumn (seq 0 (length (dtypes gdf))) ++ [GeometryColumn].

(** [gdf[col].dtype.name] *)
Definition dtype_name (gdf : GeoDataFrame) (col : column) : string :=
  match col with
  | AttrColumn i => nth i (map snd (dtypes gdf)) ""
  | GeometryColumn => "geometry"
  end.

Definition datetime_or_object (name : string) : bool :=
  String.prefix "datetime" name || String.eqb name "object".

Fixpoint for_each {A : Type} (l : list A) (body : A -> M unit) : M unit :=
  match l with
  | [] => ret tt
  | x :: l' => body x ;; for_each l' body
  end.

Definition move_ratio : Q := 0.2%Q.

Definition degenerate (bounds : option bbox) : bool :=
  match bounds with
  | Some b => Qeq_bool (width b) 0 || Qeq_bool (height b) 0
  | None => false
  end.

(** [transform_coords] with the bounds and the scale in force.  Without
    bounds the frame has no coordinate, and nothing is ever placed. *)
Definition placement (bounds : option bbox) : coord -> coord :=
  match bounds with
  | Some b => transform_coords b (canvas_scale b)
  | None => fun p => p
  end.

Section Exporters.

(** shapely's [geom.centroid], Python's [str], and the library calls
    that raise. *)
Variable centroid : geometry -> coord.
Variable py_str : value -> string.
Variable raises : site -> option exn.

Definition at_site (s : site) : M unit :=
  match raises s with
  | Some e => raise e
  | None => ret tt
  end.

(** *** [export_to_html] *)

Definition astype_str (v : value) : value := VStr (py_str v).

(** [gdf[col] = gdf[col].astype(str)] *)
Definition stringify_column (gdf : GeoDataFrame) (col : column) : GeoDataFrame :=
  match col with
  | AttrColumn i =>
      {| crs := crs gdf;
         dtypes := alter (fun c => (fst c, "object")) i (dtypes gdf);
         rows := map (fun f => {| label := label f; geom := geom f;
                                  attrs := alter astype_str i (attrs f) |})
                     (rows gdf) |}
  | GeometryColumn =>
      with_rows gdf
        (map (fun f => {| label := label f; geom := astype_str (geom f);
                          attrs := attrs f |})
             (rows gdf))
  end.

(** Lines 96-122.  The map document is recorded with the frame that
    [gdf.to_json()] serialises; the browser is given the path as it is
    (the resolution to an absolute path is left out). *)
Definition export_to_html (gdf : loc) (output_path : string) : M unit :=
  frame <- load gdf ;;
  for_each (columns frame) (fun col =>
    cur <- load gdf ;;
    if datetime_or_object (dtype_name cur col)
    then store gdf (stringify_column cur col)
    else ret tt) ;;
  geojson_data <- load gdf ;;
  at_site InHtmlSave ;;
  emit (HtmlSaved output_path geojson_data) ;;
  emit (BrowserOpened ("file://" ++ output_path)).

(** One turn of the loop of lines 101-103, on the frame itself. *)
Definition stringify_step (gdf : GeoDataFrame) (col : column) : GeoDataFrame :=
  if datetime_or_object (dtype_name gdf col)
  then stringify_column gdf col
  else gdf.

(** The frame when the loop has passed the first [k] attribute columns. *)
Definition stringified_upto (k : nat) (gdf : GeoDataFrame) : GeoDataFrame :=
  {| crs := crs gdf;
     dtypes := imap (fun i c =>
                       if (i <? k)%nat && datetime_or_object (snd c)
                       then (fst c, "object") else c) (dtypes gdf);
     rows := map (fun f =>
                    {| label := label f; geom := geom f;
                       attrs := imap (fun i v =>
                                        if (i <? k)%nat
                                           && datetime_or_object
                                                (nth i (map snd (dtypes gdf)) "")
                                        then astype_str v else v)
                                     (attrs f) |})
                 (rows gdf) |}.

(** The effect of the loop in the words of the claim: in every row the
    cells of the attribute columns whose dtype is datetime-like or object
    become strings (and those columns take the dtype object); the index,
    the geometry and the other cells stay. *)
Definition stringified (gdf : GeoDataFrame) : GeoDataFrame :=
  {| crs := crs gdf;
     dtypes := map (fun c => if datetime_or_object (snd c)
                             then (fst c, "object") else c) (dtypes gdf);
     rows := map (fun f =>
                    {| label := label f; geom := geom f;
                       attrs := imap (fun i v =>
                                        if datetime_or_object
                                             (nth i (map snd (dtypes gdf)) "")
                                        then astype_str v else v)
                                     (attrs f) |})
                 (rows gdf) |}.

(** *** [export_to_svg] *)

(** Lines 182-187: the loop that fills [new_geometries]. *)
Definition shift_blocks (ratio global_cx global_cy : Q)
    (gs : list geometry) (centroids : list coord) : list geometry :=
  fold_left
    (fun new_geometries gc =>
       let dx := (fst (snd gc) - global_cx)%Q in
       let dy := (snd (snd gc) - global_cy)%Q in
       let new_geom := translate (fst gc) (dx * ratio) (dy * ratio) in
       new_geometries ++ [new_geom])
    (combine gs centroids) [].

(** Lines 177-187, with [move_ratio] as a parameter. *)
Definition spread_blocks (ratio : Q) (gs : list geometry) : list geometry :=
  let centroids := map centroid gs in
  let global_cx := mean (map fst centroids) in
  let global_cy := mean (map snd centroids) in
  shift_blocks ratio global_cx global_cy gs centroids.

(** The spacing adjustment in the words of the spec: every geometry is
    translated by (its centroid - the global centroid) * ratio, the
    global centroid being the plain mean of the centroids. *)
Definition global_centroid (gs : list geometry) : coord :=
  (mean (map (fun g => fst (centroid g)) gs),
   mean (map (fun g => snd (centroid g)) gs)).

Definition spread_spec (ratio : Q) (gs : list geometry) : list geometry :=
  map (fun g =>
         translate g
           ((fst (centroid g) - fst (global_centroid gs)) * ratio)
           ((snd (centroid g) - snd (global_centroid gs)) * ratio))
      gs.

(** The [try] block of [export_to_svg], lines 141-231.  The two early
    [return]s leave the function from inside the block. *)
Definition export_to_svg_try (gdf : loc) (output_path data_type : string)
  : M unit :=
  let line_width := if is_pedestrian data_type then 2%Z else 1%Z in
  at_site InTypeFilter ;;
  frame <- load gdf ;;
  kept <- alloc (keep_drawable frame) ;;
  set_gdf kept ;;
  frame <- load kept ;;
  if empty frame
  then print "No valid line or polygon data, cannot generate SVG."
  else
    at_site InBounds ;;
    let bounds := total_bounds (shapes frame) in
    if degenerate bounds
    then print "Data range too small, cannot generate valid SVG."
    else
      bounds <- (if is_pedestrian data_type
                 then
                   at_site InSpacing ;;
                   let new_geometries := spread_blocks move_ratio (shapes frame) in
                   copy <- alloc frame ;;
                   set_gdf copy ;;
                   store copy (set_geometry frame new_geometries) ;;
                   at_site InRescale ;;
                   moved <- load copy ;;
                   ret (total_bounds (shapes moved))
                 else ret bounds) ;;
      at_site InDrawing ;;
      cur <- get_gdf ;;
      frame <- load cur ;;
      let dwg :=
        mkDrawing (svg_width, svg_height)
          (flat_map (draw_geometry (placement bounds) line_width) (shapes frame)) in
      at_site InSvgSave ;;
      emit (SvgSaved output_path dwg) ;;
      print ("SVG file generated: " ++ output_path).

(** The [except] block, lines 233-237: [gdf] is the variable of the
    function, with whatever it was last bound to in the [try] block. *)
Definition export_to_svg_except (output_path : string) (e : exn) : M unit :=
  print ("Warning: Error generating SVG file: " ++ exn_msg e) ;;
  print "Will use HTML format instead." ;;
  let html_path := str_replace ".svg" ".html" output_path in
  cur <- get_gdf ;;
  export_to_html cur html_path.

Definition export_to_svg (gdf : loc) (output_path data_type : string) : M unit :=
  set_gdf gdf ;;
  try_except (export_to_svg_try gdf output_path data_type)
             (export_to_svg_except output_path).

(** *** Lines 297-317 of [main]: the outputs for the extracted [data]. *)

Definition wants (output_format : string) (choices : list string) : bool :=
  existsb (String.eqb output_format) choices.

Definition export_outputs (data : loc) (address : string) (radius_miles : Q)
    (data_type output_format html_path svg_path : string) : M unit :=
  frame <- load data ;;
  if empty frame
  then print ("No " ++ data_type ++ " data found within "
              ++ py_str (VFloat radius_miles) ++ " miles of " ++ address)
  else
    print (nl ++ "Found " ++ py_str (VInt (Z.of_nat (length (rows frame))))
           ++ " " ++ data_type ++ " features") ;;
    (if wants output_format ["1"; "3"]
     then print (nl ++ "Generating HTML file: " ++ html_path) ;;
          export_to_html data html_path
     else ret tt) ;;
    (if wants output_format ["2"; "3"]
     then print (nl ++ "Generating SVG file: " ++ svg_path) ;;
          export_to_svg data svg_path data_type
     else ret tt).

End Exporters.

(** * The rest of the program *)

(** ** More of Python's strings *)

(** [s.endswith(suffix)] *)
Fixpoint endswith (s suffix : string) : bool :=
  String.eqb s suffix
  || match s with
     | EmptyString => false
     | String _ s' => endswith s' suffix
     end.

(** [old in s] *)
Fixpoint contains (old s : string) : bool :=
  String.prefix old s
  || match s with
     | EmptyString => false
     | String _ s' => contains old s'
     end.

(** ** [shrink_polygon] *)

Definition map_coords (f : coord -> coord) (g : geometry) : geometry :=
  match g with
  | LineString cs => LineString (map f cs)
  | MultiLineString ls => MultiLineString (map (map f) ls)
  | Polygon ext ints => Polygon (map f ext) (map (map f) ints)
  | MultiPolygon ps =>
      MultiPolygon (map (fun p => (map f (fst p), map (map f) (snd p))) ps)
  | Point p => Point (f p)
  | MultiPoint ps => MultiPoint (map f ps)
  end.

(** [shapely.affinity.scale(geom, xfact, yfact, origin)] with a point as
    origin: the affine map x' = xfact * x + (x0 - x0 * xfact), and the
    same in y. *)
Definition scale (g : geometry) (xfact yfact : Q) (origin : coord) : geometry :=
  map_coords
    (fun p => (xfact * fst p + (fst origin - fst origin * xfact),
               yfact * snd p + (snd origin - snd origin * yfact))%Q)
    g.

(** Lines 124-127. *)
Definition shrink_polygon (centroid : geometry -> coord) (geom : geometry)
    (factor : Q) : geometry :=
  let c := centroid geom in
  scale geom factor factor c.

(** ** The dialogue of [get_user_input] *)

(** What [float] can return. *)
Inductive pyfloat : Type :=
| Finite (q : Q)
| PosInf
| NegInf
| NaN.

(** [radius > 0] *)
Definition positive (x : pyfloat) : bool :=
  match x with
  | Finite q => match (0 ?= q)%Q with Lt => true | _ => false end
  | PosInf => true
  | NegInf => false
  | NaN => false
  end.

(** The terminal: the lines still to be typed, and what was shown. *)
Record Tty : Type := mkTty {
  stdin : list string;
  shown : list event
}.

(** The verdict of a loop on an answer: leave the loop with a value, or
    print a complaint and ask again. *)
Inductive verdict (A : Type) : Type :=
| Accept (a : A)
| Reject (complaint : string).
Arguments Accept {A} a.
Arguments Reject {A} complaint.

Definition EOFError : exn := Exn "EOFError" "EOF when reading a line".

(** [while True: x = input(prompt) ...]: every turn shows the prompt and
    takes one line; [input] raises EOFError when there is none left. *)
Fixpoint prompt_lines {A : Type} (prompt : string) (check : string -> verdict A)
    (lines : list string) (seen : list event) : result A * Tty :=
  match lines with
  | [] => (Raise EOFError, {| stdin := []; shown := seen ++ [Printed prompt] |})
  | l :: rest =>
      match check l with
      | Accept a => (Ok a, {| stdin := rest; shown := seen ++ [Printed prompt] |})
      | Reject complaint =>
          prompt_lines prompt check rest (seen ++ [Printed prompt; Printed complaint])
      end
  end.

Definition prompt_loop {A : Type} (prompt : string) (check : string -> verdict A)
    (t : Tty) : result A * Tty :=
  prompt_lines prompt check (stdin t) (shown t).

(** A line that makes the loop ask again. *)
Definition rejected {A : Type} (check : string -> verdict A) (l : string) : Prop :=
  exists complaint, check l = Reject complaint.

(** What a turn of the loop shows for a line: the prompt and, for a
    rejected line, the complaint. *)
Definition turn_shown {A : Type} (prompt : string) (check : string -> verdict A)
    (l : string) : list event :=
  match check l with
  | Reject complaint => [Printed prompt; Printed complaint]
  | Accept _ => [Printed prompt]
  end.

Definition one_of (s : string) (choices : list string) : bool :=
  existsb (String.eqb s) choices.

Record Answers : Type := mkAnswers {
  ans_address : string;
  ans_radius : pyfloat;
  ans_data_type : string;
  ans_output_format : string;
  ans_export_path : option string
}.

Section Dialogue.

(** [str.strip] and [float], of Python. *)
Variable strip : string -> string.
Variable py_float : string -> option pyfloat.

Definition check_address (line : string) : verdict string :=
  let address := strip line in
  if negb (String.eqb address "")
  then Accept address
  else Reject "Address cannot be empty, please re-enter!".

Definition check_radius (line : string) : verdict pyfloat :=
  match py_float (strip line) with
  | Some radius =>
      if positive radius
      then Accept radius
      else Reject "Radius must be greater than 0, please re-enter!"
  | None => Reject "Please enter a valid number!"
  end.

Definition check_data_type (line : string) : verdict string :=
  let data_type := strip line in
  if one_of data_type ["1"; "2"]
  then Accept (if String.eqb data_type "1" then "traffic" else "pedestrian")
  else Reject "Please enter 1 or 2!".

Definition check_output_format (line : string) : verdict string :=
  let output_format := strip line in
  if one_of output_format ["1"; "2"; "3"]
  then Accept output_format
  else Reject "Please enter 1, 2, or 3!".

(** Lines 239-283. *)
Definition get_user_input (t : Tty) : result Answers * Tty :=
  let t := {| stdin := stdin t;
              shown := shown t ++
                       [Printed (nl ++ "=== NYC Street Data Extraction Tool ===");
                        Printed "Please enter the following information:"] |} in
  match prompt_loop
          (nl ++ "Enter New York City address (e.g. 350 5th Ave, New York, NY 10118): ")
          check_address t with
  | (Raise e, t) => (Raise e, t)
  | (Ok address, t) =>
  match prompt_loop (nl ++ "Enter search radius (miles): ") check_radius t with
  | (Raise e, t) => (Raise e, t)
  | (Ok radius, t) =>
  match prompt_loop (nl ++ "Select data type (1: Centerline, 2: Sidewalk): ")
          check_data_type t with
  | (Raise e, t) => (Raise e, t)
  | (Ok data_type, t) =>
  match prompt_loop
          (nl ++ "Select output format (1: HTML map, 2: SVG file, 3: Both): ")
          check_output_format t with
  | (Raise e, t) => (Raise e, t)
  | (Ok output_format, t) =>
  let prompt :=
    (nl ++ "Enter export file base name or path (leave blank for default): ")%string in
  match stdin t with
  | [] => (Raise EOFError, {| stdin := []; shown := shown t ++ [Printed prompt] |})
  | line :: rest =>
      let export_path := strip line in
      (Ok {| ans_address := address; ans_radius := radius;
             ans_data_type := data_type; ans_output_format := output_format;
             ans_export_path := if String.eqb export_path "" then None
                                else Some export_path |},
       {| stdin := rest; shown := shown t ++ [Printed prompt] |})
  end end end end end.

End Dialogue.

(** ** One turn of [main] *)

(** [os.path.join(a, b)], POSIX. *)
Definition path_join (a b : string) : string :=
  if String.prefix "/" b then b
  else if String.eqb a "" || endswith a "/" then a ++ b
  else a ++ "/" ++ b.

(** Python's truth of [export_path], which is None or a string. *)
Definition given (export_path : option string) : bool :=
  match export_path with
  | Some p => negb (String.eqb p "")
  | None => false
  end.

Definition text (export_path : option string) : string :=
  match export_path with
  | Some p => p
  | None => ""
  end.

(** Running a function that returns or raises without touching the store. *)
Definition lift {A : Type} (r : result A) : M A := fun s => (r, s).

Section Main.

Variable region : Type.
Variable buffer : coord -> Q -> region.
Variable intersects : geometry -> region -> bool.
Variable centroid : geometry -> coord.
Variable py_str : value -> string.
Variable raises : site -> option exn.
(** [os.path.isdir] *)
Variable isdir : string -> bool.

(** Lines 303-308: the names of the two output files. *)
Definition output_paths (export_path : option string) (data_type : string)
  : string * string :=
  if given export_path && isdir (text export_path)
  then (path_join (text export_path) (data_type ++ "_map.html")%string,
        path_join (text export_path) (data_type ++ "_map.svg")%string)
  else
    (if given export_path && endswith (text export_path) ".html"
     then text export_path
     else if given export_path then (text export_path ++ "_map.html")%string
          else (data_type ++ "_map.html")%string,
     if given export_path && endswith (text export_path) ".svg"
     then text export_path
     else if given export_path then (text export_path ++ "_map.svg")%string
          else (data_type ++ "_map.svg")%string).

(** Lines 295-317: the [try] block of a turn of the loop, after the
    dialogue. *)
Definition main_try (w : World) (address : string) (radius_miles : Q)
    (data_type output_format : string) (export_path : option string) : M unit :=
  gdf <- lift (extract_street_data region buffer intersects w address radius_miles
                data_type) ;;
  data <- alloc gdf ;;
  export_outputs centroid py_str raises data address radius_miles data_type
    output_format
    (fst (output_paths export_path data_type))
    (snd (output_paths export_path data_type)).

(** Lines 290-324, the two closing questions apart: whatever is raised
    in the turn is printed. *)
Definition main_turn (w : World) (address : string) (radius_miles : Q)
    (data_type output_format : string) (export_path : option string) : M unit :=
  try_except
    (main_try w address radius_miles data_type output_format export_path)
    (fun e => print ("Error: " ++ exn_msg e)).

End Main.

(** ** Specifications of the commands of the monad *)

(** From a state in [P], the command ends in [Q] when it returns and in
    [R] when it raises. *)
Definition triple {A : Type} (P : State -> Prop) (m : M A)
    (Q : A -> State -> Prop) (R : State -> Prop) : Prop :=
  forall s, P s ->
    match m s with
    | (Ok a, s') => Q a s'
    | (Raise _, s') => R s'
    end.

(** The store has only grown since [s0], and the objects of [s0] at the
    addresses that [ok] does not allow to write are as they were. *)
Definition untouched (ok : loc -> Prop) (s0 s : State) : Prop :=
  (length (heap s0) <= length (heap s))%nat
  /\ (forall l', (l' < length (heap s0))%nat -> ~ ok l' ->
                 heap s !! l' = heap s0 !! l').

(** As [untouched]; with [aim], moreover the variable [gdf] refers to an
    object that [ok] allows to write. *)
Definition confined (ok : loc -> Prop) (s0 : State) (aim : bool) (s : State)
  : Prop :=
  untouched ok s0 s /\ (aim = true -> ok (local_gdf s)).

(** * Stand-ins for the libraries and the outside world

    The examples below run the program on concrete data; for that they
    need some buffer, some intersection test, some centroid, some [str]
    and some world.  None of the general theorems depends on them. *)

Local Open Scope Q_scope.

(** A disk instead of shapely's 64-gon, hit when a vertex lies in it. *)
Definition disk : Type := (coord * Q)%type.

Definition disk_buffer (p : coord) (r : Q) : disk := (p, r).

Definition vertex_in_disk (g : geometry) (d : disk) : bool :=
  existsb (fun p => Qle_bool (dist2 p (fst d)) (snd d * snd d)) (geom_coords g).

(** The area centroid of a ring without holes, by the shoelace sums
    (twice the area, and the two first moments times six). *)
Fixpoint shoelace (r : ring) : Q * Q * Q :=
  match r with
  | p :: (q :: _) as r' =>
      let cross := fst p * snd q - fst q * snd p in
      let '(a, sx, sy) := shoelace r' in
      (a + cross, sx + (fst p + fst q) * cross, sy + (snd p + snd q) * cross)
  | _ => (0, 0, 0)
  end.

Definition area_centroid (g : geometry) : coord :=
  match g with
  | Polygon ext _ =>
      let '(a, sx, sy) := shoelace ext in (sx / (3 * a), sy / (3 * a))
  | _ => match geom_coords g with p :: _ => p | [] => (0, 0) end
  end.

Local Close Scope Q_scope.

Definition plain_str (v : value) : string :=
  match v with
  | VStr s => s
  | VInt _ => "<int>"
  | VFloat _ => "<float>"
  | VTimestamp _ => "<timestamp>"
  | VGeom _ => "<wkt>"
  | VNone => "None"
  end.

Definition no_fault (s : site) : option exn := None.

(** [dwg.save()] cannot write the file. *)
Definition unwritable_svg (s : site) : option exn :=
  match s with
  | InSvgSave => Some (Exn "PermissionError" "Permission denied")
  | _ => None
  end.

Definition wgs84 : CRS := mkCRS "EPSG:4326" true false.
Definition state_plane : CRS := mkCRS "EPSG:2263" false true.
Definition geocentric : CRS := mkCRS "EPSG:4978" false false.

Definition street (l : Z) (a b : coord) : Feature :=
  mkFeature l (VGeom (LineString [a; b])) [VStr "st"; VTimestamp 0].

Definition block (l : Z) (x y : Q) : Feature :=
  mkFeature l
    (VGeom (Polygon [(x, y); (x + 1, y); (x + 1, y + 1); (x, y + 1); (x, y)]%Q []))
    [VInt l].

Definition streets (c : option CRS) : GeoDataFrame :=
  mkGDF c [("name", "object"); ("modified", "datetime64[ns]")]
    [street 0 (0, 0)%Q (2, 1)%Q; street 1 (50, 50)%Q (60, 60)%Q;
     street 2 (1, 0)%Q (1, 1)%Q].

Definition blocks : GeoDataFrame :=
  mkGDF (Some wgs84) [("id", "int64")] [block 0 0 0; block 1 3 0].

(** The geometry of the first of the [blocks]. *)
Definition first_block : geometry :=
  Polygon [(0, 0); (0 + 1, 0); (0 + 1, 0 + 1); (0, 0 + 1); (0, 0)]%Q [].

(** One street running due east: its extent has no height. *)
Definition flat_street : GeoDataFrame :=
  mkGDF (Some wgs84) [("name", "object"); ("modified", "datetime64[ns]")]
    [street 7 (0, 0)%Q (1, 0)%Q].

(** One street across a box twice as wide as high. *)
Definition diagonal : list geometry := [LineString [(0, 0); (2, 1)]%Q].

(** A world whose geocoder answers at the second attempt and whose
    transformer scales degrees to a plane. *)
Definition toy_world (c : option CRS) : World :=
  {| base_dir := "/data";
     path_exists := fun _ => true;
     read_file := fun _ => streets c;
     geocode := fun _ i =>
       match i with
       | O => GeocodeError "timed out"
       | _ => Located 1 (1 # 2)
       end;
     from_crs := fun c' =>
       match c' with
       | Some _ => Some (fun p => (fst p * 2, snd p * 2)%Q)
       | None => None
       end |}.

Definition fresh_state (gdf : GeoDataFrame) : State :=
  {| heap := [gdf]; out := []; local_gdf := 0 |}.

(** Landmarks: points only, nothing that [export_to_svg] draws. *)
Definition landmarks : GeoDataFrame :=
  mkGDF (Some wgs84) [("name", "object")]
    [mkFeature 0 (VGeom (Point (1, 1)%Q)) [VStr "obelisk"]].

(** The type filter of line 154 fails. *)
Definition broken_filter (s : site) : option exn :=
  match s with
  | InTypeFilter => Some (Exn "AttributeError" "No geometry data set yet")
  | _ => None
  end.

(** Neither [dwg.save()] nor [m.save()] can write its file. *)
Definition read_only_disk (s : site) : option exn :=
  match s with
  | InSvgSave | InHtmlSave => Some (Exn "PermissionError" "Permission denied")
  | _ => None
  end.

(** Two disks around the same point, the first inside the second. *)
Definition inner_disk : disk := ((1, 0), 1)%Q.
Definition outer_disk : disk := ((1, 0), 2)%Q.

(** Lines typed with no blank around them, and [float] on a few
    spellings. *)
Definition typed_clean (line : string) : string := line.

Definition float_of (s : string) : option pyfloat :=
  if String.eqb s "0" then Some (Finite 0)
  else if String.eqb s "0.5" then Some (Finite 0.5)
  else if String.eqb s "inf" then Some PosInf
  else if String.eqb s "nan" then Some NaN
  else None.

(** A session at the terminal: an empty address, a radius that is no
    number and one that is zero, a data type that is not on offer; then
    the answers that are accepted, and no export path. *)
Definition session : Tty :=
  {| stdin := [""; "350 5th Ave"; "abc"; "0"; "0.5"; "3"; "2"; "1"; ""];
     shown := [] |}.

(** The terminal is closed after the address. *)
Definition hung_up : Tty := {| stdin := ["350 5th Ave"]; shown := [] |}.

Arguments hits {region} intersects buf f.
Arguments spatial_filter {region} intersects gdf buf.
Arguments search_region {region} buffer w gdf point radius_meters.
Arguments extract_street_data {region} buffer intersects w address radius_miles data_type.

(** * Properties of the spatial filter *)

Section MaskFacts.

Context {A : Type} (p : A -> bool).

(** Indexing by the mask computed from the rows themselves is a filter. *)
Lemma select_mask_filter (l : list A) :
  select_mask l (map p l) = List.filter p l.
Proof.
  induction l as [|x l IH]; simpl; [reflexivity|].
  rewrite IH. reflexivity.
Qed.

Lemma filter_sublist_of (l : list A) : sublist (List.filter p l) l.
Proof.
  induction l as [|x l IH]; simpl.
  - constructor.
  - destruct (p x); constructor; exact IH.
Qed.

Lemma filter_twice (l : list A) :
  List.filter p (List.filter p l) = List.filter p l.
Proof.
  induction l as [|x l IH]; simpl; [reflexivity|].
  destruct (p x) eqn:Hx; simpl; [rewrite Hx, IH|]; auto.
Qed.

End MaskFacts.

Section SpatialFilter.

Context {region : Type} (intersects : geometry -> region -> bool).

Lemma spatial_filter_rows (gdf : GeoDataFrame) (buf : region) :
  rows (spatial_filter intersects gdf buf)
  = List.filter (hits intersects buf) (rows gdf).
Proof. unfold spatial_filter, getitem_mask; simpl. apply select_mask_filter. Qed.

Lemma hits_true (buf : region) (f : Feature) :
  hits intersects buf f = true
  <-> exists g, shape f = Some g /\ intersects g buf = true.
Proof.
  unfold hits. destruct (shape f) as [g|]; split.
  - intros H. exists g. auto.
  - intros (g' & Hg & H). inversion Hg; subst. exact H.
  - discriminate.
  - intros (g' & Hg & _). discriminate.
Qed.

(** C1. The filter returns exactly the features whose geometry
    intersects the region (the subsequence of the source rows selected
    by the predicate): a feature is in the result iff it is in the
    source and intersects; the result is a subsequence of the source,
    so the surviving features keep their relative order; and the result
    is never longer than the source. *)
Theorem spatial_filter_exact (gdf : GeoDataFrame) (buf : region) :
  rows (spatial_filter intersects gdf buf)
    = List.filter (hits intersects buf) (rows gdf)
  /\ (forall f, In f (rows (spatial_filter intersects gdf buf))
                <-> In f (rows gdf)
                    /\ exists g, shape f = Some g /\ intersects g buf = true)
  /\ sublist (rows (spatial_filter intersects gdf buf)) (rows gdf)
  /\ (length (rows (spatial_filter intersects gdf buf)) <= length (rows gdf))%nat
  /\ crs (spatial_filter intersects gdf buf) = crs gdf.
Proof.
  rewrite spatial_filter_rows.
  split; [reflexivity|]. split; [|split; [|split]].
  - intros f. rewrite filter_In, hits_true. reflexivity.
  - apply filter_sublist_of.
  - apply sublist_length, filter_sublist_of.
  - reflexivity.
Qed.

(** C8. Filtering an already filtered collection against the same
    region returns that collection unchanged. *)
Theorem spatial_filter_idempotent (gdf : GeoDataFrame) (buf : region) :
  spatial_filter intersects (spatial_filter intersects gdf buf) buf
  = spatial_filter intersects gdf buf.
Proof.
  unfold spatial_filter, getitem_mask, with_rows; simpl.
  rewrite !select_mask_filter, filter_twice. reflexivity.
Qed.

End SpatialFilter.

(** * The search region *)

Section SearchRegion.

Context {region : Type} (buffer : coord -> Q -> region)
        (intersects : geometry -> region -> bool).

Lemma extract_street_data_located (w : World) (address data_type : string)
    (r : Q) (p : coord) :
  path_exists w (data_path w data_type) = true ->
  geocode_loop w address (seq 0 3) = Some p ->
  extract_street_data buffer intersects w address r data_type
  = match search_region buffer w (read_file w (data_path w data_type)) p
            (r * 1609.34)%Q with
    | Raise e => Raise e
    | Ok buf => Ok (spatial_filter intersects (read_file w (data_path w data_type)) buf)
    end.
Proof.
  intros Hpath Hgeo. unfold extract_street_data.
  rewrite Hpath, Hgeo. reflexivity.
Qed.

(** C4. The radius in meters is [r * 1609.34].  On a geographic dataset
    the features are filtered against the buffer of [(r * 1609.34) /
    111000] degrees around the geocoded point itself; on a dataset that
    is not geographic (a projected one) the point is first transformed
    from EPSG:4326 into the CRS of the dataset and buffered there by
    [r * 1609.34] meters.  (The bound [r > 0] is not needed.) *)
Theorem search_radius_by_crs (w : World) (address data_type : string)
    (r : Q) (p : coord) (c : CRS) :
  path_exists w (data_path w data_type) = true ->
  geocode_loop w address (seq 0 3) = Some p ->
  crs (read_file w (data_path w data_type)) = Some c ->
  (is_geographic c = true ->
   extract_street_data buffer intersects w address r data_type
   = Ok (spatial_filter intersects (read_file w (data_path w data_type))
           (buffer p ((r * 1609.34) / 111000)%Q)))
  /\ (forall project,
         is_projected c = true -> is_geographic c = false ->
         from_crs w (Some c) = Some project ->
         extract_street_data buffer intersects w address r data_type
         = Ok (spatial_filter intersects (read_file w (data_path w data_type))
                 (buffer (project p) (r * 1609.34)%Q))).
Proof.
  intros Hpath Hgeo Hcrs.
  rewrite (extract_street_data_located w address data_type r p Hpath Hgeo).
  unfold search_region. rewrite Hcrs. split.
  - intros ->. reflexivity.
  - intros project _ -> ->. reflexivity.
Qed.

(** C6, as the code has it.  A dataset whose CRS is not geographic,
    be it projected, of another kind or missing, takes the projected
    path: pyproj is asked for the transform from EPSG:4326 to that CRS;
    if there is one, the region is the buffer of the transformed point by
    the radius in meters, otherwise pyproj's own error is raised.  An
    UnsupportedCrsError is never raised. *)
Theorem search_region_not_geographic (w : World) (gdf : GeoDataFrame)
    (p : coord) (radius_meters : Q) :
  (forall c, crs gdf = Some c -> is_geographic c = false) ->
  search_region buffer w gdf p radius_meters
  = match from_crs w (crs gdf) with
    | Some project => Ok (buffer (project p) radius_meters)
    | None => Raise (Exn "CRSError" "Invalid projection")
    end
  /\ forall msg,
       search_region buffer w gdf p radius_meters
       <> Raise (Exn "UnsupportedCrsError" msg).
Proof.
  intros Hc. unfold search_region.
  destruct (crs gdf) as [c|] eqn:Hcrs.
  - rewrite (Hc c eq_refl).
    destruct (from_crs w (Some c)); split; try reflexivity; discriminate.
  - destruct (from_crs w None); split; try reflexivity; discriminate.
Qed.

End SearchRegion.

Lemma search_radius_by_crs_witness :
  extract_street_data disk_buffer vertex_in_disk (toy_world (Some wgs84))
    "350 5th Ave" 69 "traffic"
  = Ok (spatial_filter vertex_in_disk (streets (Some wgs84))
          (disk_buffer (1, 1 # 2)%Q ((69 * 1609.34) / 111000)%Q))
  /\ extract_street_data disk_buffer vertex_in_disk (toy_world (Some state_plane))
       "350 5th Ave" 69 "traffic"
     = Ok (spatial_filter vertex_in_disk (streets (Some state_plane))
             (disk_buffer (1 * 2, (1 # 2) * 2)%Q (69 * 1609.34)%Q)).
Proof.
  split.
  - apply (proj1 (search_radius_by_crs disk_buffer vertex_in_disk
                    (toy_world (Some wgs84)) "350 5th Ave" "traffic" 69
                    (1, 1 # 2)%Q wgs84 eq_refl eq_refl eq_refl)).
    reflexivity.
  - apply (proj2 (search_radius_by_crs disk_buffer vertex_in_disk
                    (toy_world (Some state_plane)) "350 5th Ave" "traffic" 69
                    (1, 1 # 2)%Q state_plane eq_refl eq_refl eq_refl)
             (fun p => (fst p * 2, snd p * 2)%Q));
      reflexivity.
Defined.

(** C6, as the spec has it, fails: a geocentric CRS is neither
    geographic nor projected, and its region is built on the projected
    path without any error. *)
Lemma unsupported_crs_counterexample :
  crs (streets (Some geocentric)) = Some geocentric
  /\ is_geographic geocentric = false
  /\ is_projected geocentric = false
  /\ search_region disk_buffer (toy_world (Some geocentric))
       (streets (Some geocentric)) (1, 1 # 2)%Q 100
     = Ok (disk_buffer (1 * 2, (1 # 2) * 2)%Q 100)
  /\ ~ (exists msg,
          search_region disk_buffer (toy_world (Some geocentric))
            (streets (Some geocentric)) (1, 1 # 2)%Q 100
          = Raise (Exn "UnsupportedCrsError" msg)).
Proof.
  repeat split; try reflexivity.
  intros [msg H]. discriminate H.
Qed.

Lemma search_region_not_geographic_witness :
  search_region disk_buffer (toy_world (Some geocentric))
    (streets (Some geocentric)) (1, 1 # 2)%Q 100
  = Ok (disk_buffer (1 * 2, (1 # 2) * 2)%Q 100)
  /\ forall msg,
       search_region disk_buffer (toy_world (Some geocentric))
         (streets (Some geocentric)) (1, 1 # 2)%Q 100
       <> Raise (Exn "UnsupportedCrsError" msg).
Proof.
  apply (search_region_not_geographic disk_buffer (toy_world (Some geocentric))
           (streets (Some geocentric)) (1, 1 # 2)%Q 100).
  intros c H. injection H as <-. reflexivity.
Defined.

(** * The monad at work *)

(** Running the primitives of the monad, one step at a time. *)
Section RunFacts.

Variable raises : site -> option exn.

Lemma bind_assoc {B C : Type} (m : M B) (f : B -> M C) (k : C -> M unit) (s : State) :
  bind (bind m f) k s = bind m (fun x => bind (f x) k) s.
Proof. unfold bind. destruct (m s) as [[b|e] s']; reflexivity. Qed.

Lemma run_at_site_ok (st : site) (k : unit -> M unit) (s : State) :
  raises st = None -> bind (at_site raises st) k s = k tt s.
Proof. intros H. unfold bind, at_site. rewrite H. reflexivity. Qed.

Lemma run_at_site_raise (st : site) (e : exn) (k : unit -> M unit) (s : State) :
  raises st = Some e -> bind (at_site raises st) k s = (Raise e, s).
Proof. intros H. unfold bind, at_site. rewrite H. reflexivity. Qed.

Lemma run_load (l : loc) (frame : GeoDataFrame) (k : GeoDataFrame -> M unit) (s : State) :
  heap s !! l = Some frame -> bind (load l) k s = k frame s.
Proof. intros H. unfold bind, load. rewrite H. reflexivity. Qed.

Lemma run_ret {B : Type} (b : B) (k : B -> M unit) (s : State) :
  bind (ret b) k s = k b s.
Proof. reflexivity. Qed.

Lemma run_alloc (gdf : GeoDataFrame) (k : loc -> M unit) (s : State) :
  bind (alloc gdf) k s = k (length (heap s)) (set_heap s (heap s ++ [gdf])).
Proof. reflexivity. Qed.

Lemma run_store (l : loc) (gdf : GeoDataFrame) (k : unit -> M unit) (s : State) :
  bind (store l gdf) k s = k tt (set_heap s (<[l := gdf]> (heap s))).
Proof. reflexivity. Qed.

Lemma run_set_gdf (l : loc) (k : unit -> M unit) (s : State) :
  bind (set_gdf l) k s = k tt {| heap := heap s; out := out s; local_gdf := l |}.
Proof. reflexivity. Qed.

Lemma run_get_gdf (k : loc -> M unit) (s : State) :
  bind get_gdf k s = k (local_gdf s) s.
Proof. reflexivity. Qed.

Lemma run_emit (e : event) (k : unit -> M unit) (s : State) :
  bind (emit e) k s
  = k tt {| heap := heap s; out := out s ++ [e]; local_gdf := local_gdf s |}.
Proof. reflexivity. Qed.

End RunFacts.

(** * The HTML export *)

Section HtmlFacts.

Variable centroid : geometry -> coord.
Variable py_str : value -> string.
Variable raises : site -> option exn.

Lemma imap_same {A : Type} (f : nat -> A -> A) (l : list A) :
  (forall i x, l !! i = Some x -> f i x = x) -> imap f l = l.
Proof.
  intros H. apply list_eq. intros i. rewrite list_lookup_imap.
  destruct (l !! i) as [x|] eqn:E; simpl; [|reflexivity].
  rewrite (H i x E). reflexivity.
Qed.

Lemma stringified_upto_0 (gdf : GeoDataFrame) : stringified_upto py_str 0 gdf = gdf.
Proof.
  destruct gdf as [c d r]. unfold stringified_upto; simpl. f_equal.
  - apply imap_same. reflexivity.
  - rewrite <- (map_id r) at 2. apply map_ext. intros [l g a]; simpl.
    f_equal. apply imap_same. reflexivity.
Qed.

Lemma dtype_name_upto (k : nat) (gdf : GeoDataFrame) :
  dtype_name (stringified_upto py_str k gdf) (AttrColumn k)
  = nth k (map snd (dtypes gdf)) "".
Proof.
  simpl. rewrite !nth_lookup.
  change (map snd ?l) with (snd <$> l).
  rewrite !list_lookup_fmap, list_lookup_imap.
  destruct (dtypes gdf !! k) as [c|]; simpl; [|reflexivity].
  rewrite Nat.ltb_irrefl. reflexivity.
Qed.

Lemma upto_step_cond (k i : nat) (b : bool) :
  (i <? S k)%nat && b = if Nat.eqb i k then b else (i <? k)%nat && b.
Proof.
  destruct (Nat.eqb_spec i k) as [->|Hne].
  - rewrite (proj2 (Nat.ltb_lt k (S k))); [reflexivity|lia].
  - destruct (Nat.ltb_spec i (S k)), (Nat.ltb_spec i k); try reflexivity; lia.
Qed.

Lemma stringify_step_upto (k : nat) (gdf : GeoDataFrame) :
  stringify_step py_str (stringified_upto py_str k gdf) (AttrColumn k)
  = stringified_upto py_str (S k) gdf.
Proof.
  unfold stringify_step. rewrite dtype_name_upto.
  destruct (datetime_or_object (nth k (map snd (dtypes gdf)) "")) eqn:Hk.
  - unfold stringify_column, stringified_upto; simpl. f_equal.
    + apply list_eq. intros i.
      rewrite list_lookup_alter.
      destruct (decide (k = i)) as [<-|Hne]; rewrite !list_lookup_imap.
      *
        destruct (dtypes gdf !! k) as [c|] eqn:Hi; simpl; [|reflexivity].
        rewrite upto_step_cond, Nat.eqb_refl, Nat.ltb_irrefl. simpl.
        rewrite nth_lookup in Hk. change (map snd ?l) with (snd <$> l) in Hk.
        rewrite list_lookup_fmap, Hi in Hk. simpl in Hk. rewrite Hk. reflexivity.
      * destruct (dtypes gdf !! i) as [c|] eqn:Hi; simpl; [|reflexivity].
        rewrite upto_step_cond.
        destruct (Nat.eqb_spec i k); [congruence|reflexivity].
    + rewrite map_map. apply map_ext. intros f; simpl. f_equal.
      apply list_eq. intros i.
      rewrite list_lookup_alter.
      destruct (decide (k = i)) as [<-|Hne]; rewrite !list_lookup_imap.
      *
        destruct (attrs f !! k) as [v|] eqn:Hi; simpl; [|reflexivity].
        rewrite upto_step_cond, Nat.eqb_refl, Nat.ltb_irrefl, Hk. reflexivity.
      * destruct (attrs f !! i) as [v|] eqn:Hi; simpl; [|reflexivity].
        rewrite upto_step_cond.
        destruct (Nat.eqb_spec i k); [congruence|reflexivity].
  - unfold stringified_upto. f_equal.
    + apply imap_ext. intros i c Hi. rewrite upto_step_cond.
      destruct (Nat.eqb_spec i k) as [->|]; [|reflexivity].
      rewrite Nat.ltb_irrefl. simpl.
      rewrite nth_lookup in Hk. change (map snd ?l) with (snd <$> l) in Hk.
      rewrite list_lookup_fmap, Hi in Hk. simpl in Hk. rewrite Hk. reflexivity.
    + apply map_ext. intros f. f_equal.
      apply imap_ext. intros i v Hi. rewrite upto_step_cond.
      destruct (Nat.eqb_spec i k) as [->|]; [|reflexivity].
      rewrite Nat.ltb_irrefl, Hk. reflexivity.
Qed.

Lemma fold_attr_columns (n : nat) (gdf : GeoDataFrame) :
  fold_left (stringify_step py_str) (map AttrColumn (seq 0 n)) gdf
  = stringified_upto py_str n gdf.
Proof.
  induction n as [|n IH].
  - simpl. symmetry. apply stringified_upto_0.
  - rewrite seq_S, map_app, fold_left_app, IH. simpl.
    apply stringify_step_upto.
Qed.

Lemma stringified_upto_all (gdf : GeoDataFrame) :
  stringified_upto py_str (length (dtypes gdf)) gdf = stringified py_str gdf.
Proof.
  unfold stringified_upto, stringified. f_equal.
  - apply list_eq. intros i.
    change (map ?f ?l) with (f <$> l).
    rewrite list_lookup_imap, list_lookup_fmap.
    destruct (dtypes gdf !! i) as [c|] eqn:Hi; simpl; [|reflexivity].
    apply lookup_lt_Some in Hi.
    rewrite (proj2 (Nat.ltb_lt _ _) Hi). reflexivity.
  - apply map_ext. intros f. f_equal. apply imap_ext. intros i v _.
    destruct (Nat.ltb_spec i (length (dtypes gdf))) as [|Hge]; [reflexivity|].
    simpl. rewrite nth_overflow; [reflexivity|].
    rewrite length_map. exact Hge.
Qed.

Lemma fold_columns (gdf : GeoDataFrame) :
  fold_left (stringify_step py_str) (columns gdf) gdf = stringified py_str gdf.
Proof.
  unfold columns. rewrite fold_left_app, fold_attr_columns, stringified_upto_all.
  reflexivity.
Qed.

Lemma html_loop (l : loc) (cols : list column) :
  forall (s : State) (frame : GeoDataFrame),
    heap s !! l = Some frame ->
    for_each cols
      (fun col =>
         bind (load l) (fun cur =>
           if datetime_or_object (dtype_name cur col)
           then store l (stringify_column py_str cur col)
           else ret tt)) s
    = (Ok tt, set_heap s (<[l := fold_left (stringify_step py_str) cols frame]> (heap s))).
Proof.
  induction cols as [|col cols IH]; intros s frame Hl.
  - cbn [for_each fold_left]. unfold ret.
    rewrite (list_insert_id _ _ _ Hl). destruct s; reflexivity.
  - cbn [for_each fold_left]. unfold bind at 1. unfold bind at 1. unfold load at 1.
    rewrite Hl. unfold stringify_step at 2.
    destruct (datetime_or_object (dtype_name frame col)).
    + unfold store.
      rewrite (IH _ (stringify_column py_str frame col)).
      * unfold set_heap; simpl. rewrite list_insert_insert_eq. reflexivity.
      * simpl. apply list_lookup_insert_eq. eapply lookup_lt_Some, Hl.
    + unfold ret. apply IH, Hl.
Qed.

Lemma export_to_html_run (l : loc) (path : string) (s : State) (frame : GeoDataFrame) :
  heap s !! l = Some frame ->
  export_to_html py_str raises l path s
  = match raises InHtmlSave with
    | Some e => (Raise e, set_heap s (<[l := stringified py_str frame]> (heap s)))
    | None =>
        (Ok tt,
         {| heap := <[l := stringified py_str frame]> (heap s);
            out := out s ++ [HtmlSaved path (stringified py_str frame);
                             BrowserOpened ("file://" ++ path)];
            local_gdf := local_gdf s |})
    end.
Proof.
  intros Hl. unfold export_to_html.
  unfold bind at 1. unfold load at 1. rewrite Hl.
  unfold bind at 1. rewrite (html_loop l _ s frame Hl), fold_columns.
  unfold bind at 1. unfold load at 1. simpl heap.
  rewrite list_lookup_insert_eq by (eapply lookup_lt_Some, Hl).
  unfold bind at 1. unfold at_site.
  destruct (raises InHtmlSave) as [e|]; [reflexivity|].
  unfold ret, bind, emit; simpl. rewrite <- app_assoc. reflexivity.
Qed.

Lemma stringified_keeps_geometry (gdf : GeoDataFrame) :
  map geom (rows (stringified py_str gdf)) = map geom (rows gdf)
  /\ map label (rows (stringified py_str gdf)) = map label (rows gdf)
  /\ crs (stringified py_str gdf) = crs gdf.
Proof.
  unfold stringified; simpl. rewrite !map_map. simpl.
  repeat split; reflexivity.
Qed.

Lemma export_outputs_both (l : loc) (address : string) (r : Q)
    (data_type html_path svg_path : string) (s : State) (frame : GeoDataFrame) :
  heap s !! l = Some frame ->
  empty frame = false ->
  raises InHtmlSave = None ->
  export_outputs centroid py_str raises l address r data_type "3"
    html_path svg_path s
  = export_to_svg centroid py_str raises l svg_path data_type
      {| heap := <[l := stringified py_str frame]> (heap s);
         out := out s ++
                [Printed (nl ++ "Found "
                          ++ py_str (VInt (Z.of_nat (length (rows frame))))
                          ++ " " ++ data_type ++ " features");
                 Printed (nl ++ "Generating HTML file: " ++ html_path);
                 HtmlSaved html_path (stringified py_str frame);
                 BrowserOpened ("file://" ++ html_path);
                 Printed (nl ++ "Generating SVG file: " ++ svg_path)];
         local_gdf := local_gdf s |}.
Proof.
  intros Hl Hne Hsave. unfold export_outputs.
  rewrite (run_load l frame) by exact Hl.
  rewrite Hne. unfold print. rewrite run_emit.
  change (wants "3" ["1"; "3"]) with true.
  change (wants "3" ["2"; "3"]) with true. cbv iota.
  rewrite bind_assoc, run_emit.
  unfold bind at 1. rewrite (export_to_html_run l _ _ frame) by exact Hl.
  rewrite Hsave. cbn [heap out local_gdf].
  rewrite run_emit. cbn [heap out local_gdf].
  rewrite <- !app_assoc. reflexivity.
Qed.

(** C10. [export_to_html] changes the collection it is given, in place:
    after the call (even one whose save raised) the caller's object
    holds the frame in which the cells of every attribute column whose
    dtype is datetime-like or object are strings, and no other object of
    the store has changed; the index, the CRS and the geometry column of
    the frame are as before.  When both outputs are requested, the SVG
    export that follows reads this stringified frame. *)
Theorem export_to_html_mutates_caller (l : loc) (path : string) (s : State)
    (frame : GeoDataFrame) :
  heap s !! l = Some frame ->
  heap (snd (export_to_html py_str raises l path s))
    = <[l := stringified py_str frame]> (heap s)
  /\ heap (snd (export_to_html py_str raises l path s)) !! l
     = Some (stringified py_str frame)
  /\ (forall l', l' <> l ->
        heap (snd (export_to_html py_str raises l path s)) !! l' = heap s !! l')
  /\ map geom (rows (stringified py_str frame)) = map geom (rows frame)
  /\ map label (rows (stringified py_str frame)) = map label (rows frame)
  /\ (forall i f j v,
        rows frame !! i = Some f -> attrs f !! j = Some v ->
        exists f',
          rows (stringified py_str frame) !! i = Some f'
          /\ attrs f' !! j
             = Some (if datetime_or_object (nth j (map snd (dtypes frame)) "")
                     then VStr (py_str v) else v))
  /\ (forall address r data_type html_path svg_path,
        empty frame = false ->
        raises InHtmlSave = None ->
        exists s',
          heap s' !! l = Some (stringified py_str frame)
          /\ export_outputs centroid py_str raises l address r data_type "3"
               html_path svg_path s
             = export_to_svg centroid py_str raises l svg_path data_type s').
Proof.
  intros Hl.
  assert (heap (snd (export_to_html py_str raises l path s))
          = <[l := stringified py_str frame]> (heap s)) as Hheap.
  { rewrite (export_to_html_run l path s frame Hl).
    destruct (raises InHtmlSave); reflexivity. }
  pose proof (lookup_lt_Some _ _ _ Hl) as Hlt.
  destruct (stringified_keeps_geometry frame) as (Hg & Hlab & _).
  rewrite Hheap. split; [reflexivity|].
  split; [apply list_lookup_insert_eq, Hlt|].
  split; [intros l' Hne; apply list_lookup_insert_ne; congruence|].
  split; [exact Hg|]. split; [exact Hlab|]. split.
  - intros i f j v Hi Hj. eexists. split.
    + unfold stringified; cbn [rows].
      change (map ?g ?x) with (g <$> x).
      rewrite list_lookup_fmap, Hi. reflexivity.
    + cbn [attrs]. rewrite list_lookup_imap, Hj. simpl.
      destruct (datetime_or_object _); reflexivity.
  - intros address r data_type html_path svg_path Hne Hsave.
    eexists. split; [|apply (export_outputs_both l address r data_type
                               html_path svg_path s frame Hl Hne Hsave)].
    cbn [heap]. apply list_lookup_insert_eq, Hlt.
Qed.

End HtmlFacts.

Lemma export_to_html_mutates_caller_witness :
  heap (snd (export_to_html plain_str no_fault 0 "map.html"
               (fresh_state (streets (Some wgs84)))))
  = [stringified plain_str (streets (Some wgs84))]
  /\ map (fun f => attrs f) (rows (stringified plain_str (streets (Some wgs84))))
     = [[VStr "st"; VStr "<timestamp>"]; [VStr "st"; VStr "<timestamp>"];
        [VStr "st"; VStr "<timestamp>"]]
  /\ exists s',
       heap s' !! 0%nat = Some (stringified plain_str (streets (Some wgs84)))
       /\ export_outputs area_centroid plain_str no_fault 0 "350 5th Ave" 1
            "traffic" "3" "map.html" "map.svg"
            (fresh_state (streets (Some wgs84)))
          = export_to_svg area_centroid plain_str no_fault 0 "map.svg" "traffic" s'.
Proof.
  pose proof (export_to_html_mutates_caller area_centroid plain_str no_fault
                0 "map.html" (fresh_state (streets (Some wgs84)))
                (streets (Some wgs84)) eq_refl) as H.
  split; [exact (proj1 H)|]. split; [reflexivity|].
  exact (proj2 (proj2 (proj2 (proj2 (proj2 (proj2 H)))))
           "350 5th Ave" 1%Q "traffic" "map.html" "map.svg" eq_refl eq_refl).
Defined.


(** * The SVG export *)

Section SvgFacts.

Variable centroid : geometry -> coord.
Variable py_str : value -> string.
Variable raises : site -> option exn.

Lemma fold_left_snoc {X Y : Type} (f : X -> Y) (l : list X) (acc : list Y) :
  fold_left (fun acc x => acc ++ [f x]) l acc = acc ++ map f l.
Proof.
  revert acc. induction l as [|x l IH]; intros acc; simpl.
  - rewrite app_nil_r. reflexivity.
  - rewrite IH, <- app_assoc. reflexivity.
Qed.

Lemma combine_map_r {X Y : Type} (f : X -> Y) (l : list X) :
  combine l (map f l) = map (fun x => (x, f x)) l.
Proof. induction l as [|x l IH]; simpl; [|rewrite IH]; reflexivity. Qed.

Lemma spread_blocks_spec (ratio : Q) (gs : list geometry) :
  spread_blocks centroid ratio gs = spread_spec centroid ratio gs.
Proof.
  unfold spread_blocks, shift_blocks, spread_spec, global_centroid.
  rewrite combine_map_r.
  rewrite (fold_left_snoc
             (fun gc : geometry * coord =>
                translate (fst gc)
                  ((fst (snd gc) - mean (map fst (map centroid gs))) * ratio)
                  ((snd (snd gc) - mean (map snd (map centroid gs))) * ratio))).
  simpl. rewrite !map_map. reflexivity.
Qed.

Lemma drawable_shape (f : Feature) :
  drawable (shape f) = true -> exists g, shape f = Some g.
Proof. destruct (shape f) as [g|]; [eauto|discriminate]. Qed.

Lemma shapes_set_geom (rs : list Feature) (gs : list geometry) :
  length gs = length rs -> omap shape (zip_with set_geom rs gs) = gs.
Proof.
  revert gs. induction rs as [|f rs IH]; intros [|g gs] Hlen; simpl in *;
    try discriminate; [reflexivity|].
  injection Hlen as Hlen. f_equal. apply IH, Hlen.
Qed.

Lemma shapes_keep_drawable_length (gdf : GeoDataFrame) :
  length (shapes (keep_drawable gdf)) = length (rows (keep_drawable gdf)).
Proof.
  unfold shapes, keep_drawable, getitem_mask, geometries; simpl.
  rewrite map_map, (select_mask_filter (fun f => drawable (shape f))).
  induction (rows gdf) as [|f rs IH]; simpl; [reflexivity|].
  destruct (drawable (shape f)) eqn:Hd; [|exact IH].
  destruct (drawable_shape f Hd) as [g Hg]. simpl. rewrite Hg. simpl.
  f_equal. exact IH.
Qed.

Lemma lookup_fresh {X : Type} (h : list X) (x : X) : (h ++ [x]) !! length h = Some x.
Proof. apply list_lookup_middle. reflexivity. Qed.

Lemma insert_fresh {X : Type} (h : list X) (x y : X) :
  <[length h := y]> (h ++ [x]) = h ++ [y].
Proof. induction h as [|z h IH]; simpl; [|rewrite IH]; reflexivity. Qed.

Lemma spread_blocks_length (ratio : Q) (gs : list geometry) :
  length (spread_blocks centroid ratio gs) = length gs.
Proof. rewrite spread_blocks_spec. apply length_map. Qed.

Lemma shapes_moved (gdf : GeoDataFrame) (ratio : Q) :
  shapes (set_geometry (keep_drawable gdf)
            (spread_blocks centroid ratio (shapes (keep_drawable gdf))))
  = spread_blocks centroid ratio (shapes (keep_drawable gdf)).
Proof.
  unfold shapes at 1, set_geometry. cbn [rows with_rows].
  apply shapes_set_geom.
  rewrite spread_blocks_length. apply shapes_keep_drawable_length.
Qed.

(** The [try] block up to the test for an empty frame. *)
Local Ltac svg_prologue l frame Hl Hf Hne :=
  unfold export_to_svg_try; cbv zeta;
  rewrite (run_at_site_ok raises InTypeFilter) by exact Hf;
  rewrite (run_load l frame) by exact Hl;
  rewrite run_alloc, run_set_gdf; cbn [set_heap heap out local_gdf];
  rewrite (run_load _ (keep_drawable frame)) by apply lookup_fresh;
  rewrite Hne.

(** Line data: the drawable rows are drawn as they are; a failure to
    save leaves [gdf] bound to the frame of the drawable rows. *)
Lemma try_traffic (l : loc) (path data_type : string) (s : State)
    (frame : GeoDataFrame) :
  heap s !! l = Some frame ->
  (forall st, st <> InSvgSave -> raises st = None) ->
  is_pedestrian data_type = false ->
  empty (keep_drawable frame) = false ->
  degenerate (total_bounds (shapes (keep_drawable frame))) = false ->
  export_to_svg_try centroid raises l path data_type s
  = match raises InSvgSave with
    | Some e =>
        (Raise e,
         {| heap := heap s ++ [keep_drawable frame]; out := out s;
            local_gdf := length (heap s) |})
    | None =>
        (Ok tt,
         {| heap := heap s ++ [keep_drawable frame];
            out := out s ++
                   [SvgSaved path
                      (mkDrawing (svg_width, svg_height)
                         (flat_map
                            (draw_geometry
                               (placement (total_bounds (shapes (keep_drawable frame))))
                               1)
                            (shapes (keep_drawable frame))));
                    Printed ("SVG file generated: " ++ path)];
            local_gdf := length (heap s) |})
    end.
Proof.
  intros Hl Hno Hped Hne Hdeg.
  svg_prologue l frame Hl (Hno InTypeFilter ltac:(discriminate)) Hne.
  rewrite Hped.
  rewrite (run_at_site_ok raises InBounds) by (apply Hno; discriminate).
  rewrite Hdeg, run_ret.
  rewrite (run_at_site_ok raises InDrawing) by (apply Hno; discriminate).
  rewrite run_get_gdf. cbn [local_gdf].
  rewrite (run_load _ (keep_drawable frame)) by apply lookup_fresh.
  destruct (raises InSvgSave) as [e|] eqn:Hsave.
  - rewrite (run_at_site_raise raises InSvgSave e) by exact Hsave. reflexivity.
  - rewrite (run_at_site_ok raises InSvgSave) by exact Hsave.
    rewrite run_emit. unfold print, emit. cbn [heap out local_gdf].
    rewrite <- app_assoc. reflexivity.
Qed.

(** Polygon data: the drawable rows are copied, the copy takes the
    moved geometries and is drawn; a failure to save leaves [gdf] bound to
    that copy. *)
Lemma try_pedestrian (l : loc) (path data_type : string) (s : State)
    (frame : GeoDataFrame) :
  heap s !! l = Some frame ->
  (forall st, st <> InSvgSave -> raises st = None) ->
  is_pedestrian data_type = true ->
  empty (keep_drawable frame) = false ->
  degenerate (total_bounds (shapes (keep_drawable frame))) = false ->
  export_to_svg_try centroid raises l path data_type s
  = match raises InSvgSave with
    | Some e =>
        (Raise e,
         {| heap := heap s ++
                    [keep_drawable frame;
                     set_geometry (keep_drawable frame)
                       (spread_blocks centroid move_ratio
                          (shapes (keep_drawable frame)))];
            out := out s;
            local_gdf := S (length (heap s)) |})
    | None =>
        (Ok tt,
         {| heap := heap s ++
                    [keep_drawable frame;
                     set_geometry (keep_drawable frame)
                       (spread_blocks centroid move_ratio
                          (shapes (keep_drawable frame)))];
            out := out s ++
                   [SvgSaved path
                      (mkDrawing (svg_width, svg_height)
                         (flat_map
                            (draw_geometry
                               (placement
                                  (total_bounds
                                     (spread_blocks centroid move_ratio
                                        (shapes (keep_drawable frame))))) 2)
                            (spread_blocks centroid move_ratio
                               (shapes (keep_drawable frame)))));
                    Printed ("SVG file generated: " ++ path)];
            local_gdf := S (length (heap s)) |})
    end.
Proof.
  intros Hl Hno Hped Hne Hdeg.
  svg_prologue l frame Hl (Hno InTypeFilter ltac:(discriminate)) Hne.
  rewrite Hped.
  rewrite (run_at_site_ok raises InBounds) by (apply Hno; discriminate).
  rewrite Hdeg.
  rewrite bind_assoc.
  rewrite (run_at_site_ok raises InSpacing) by (apply Hno; discriminate).
  rewrite bind_assoc, run_alloc. cbn [set_heap heap out local_gdf].
  rewrite bind_assoc, run_set_gdf. cbn [heap out local_gdf].
  rewrite bind_assoc, run_store. cbn [set_heap heap out local_gdf].
  rewrite insert_fresh.
  rewrite bind_assoc.
  rewrite (run_at_site_ok raises InRescale) by (apply Hno; discriminate).
  rewrite bind_assoc.
  rewrite (run_load (length (heap s ++ [keep_drawable frame]))
             (set_geometry (keep_drawable frame)
                (spread_blocks centroid move_ratio (shapes (keep_drawable frame)))))
    by apply lookup_fresh.
  rewrite run_ret.
  rewrite (run_at_site_ok raises InDrawing) by (apply Hno; discriminate).
  rewrite run_get_gdf. cbn [local_gdf].
  rewrite (run_load (length (heap s ++ [keep_drawable frame]))
             (set_geometry (keep_drawable frame)
                (spread_blocks centroid move_ratio (shapes (keep_drawable frame)))))
    by apply lookup_fresh.
  rewrite shapes_moved, <- !app_assoc, length_app, Nat.add_1_r. cbn [length app].
  destruct (raises InSvgSave) as [e|] eqn:Hsave.
  - rewrite (run_at_site_raise raises InSvgSave e) by exact Hsave. reflexivity.
  - rewrite (run_at_site_ok raises InSvgSave) by exact Hsave.
    rewrite run_emit. unfold print, emit. cbn [heap out local_gdf].
    rewrite <- !app_assoc. reflexivity.
Qed.

Lemma export_to_svg_traffic (l : loc) (path data_type : string) (s : State)
    (frame : GeoDataFrame) :
  heap s !! l = Some frame ->
  (forall st, raises st = None) ->
  is_pedestrian data_type = false ->
  empty (keep_drawable frame) = false ->
  degenerate (total_bounds (shapes (keep_drawable frame))) = false ->
  export_to_svg centroid py_str raises l path data_type s
  = (Ok tt,
     {| heap := heap s ++ [keep_drawable frame];
        out := out s ++
               [SvgSaved path
                  (mkDrawing (svg_width, svg_height)
                     (flat_map
                        (draw_geometry
                           (placement (total_bounds (shapes (keep_drawable frame)))) 1)
                        (shapes (keep_drawable frame))));
                Printed ("SVG file generated: " ++ path)];
        local_gdf := length (heap s) |}).
Proof.
  intros Hl Hno Hped Hne Hdeg.
  unfold export_to_svg, try_except. rewrite run_set_gdf.
  rewrite (try_traffic l path data_type
             {| heap := heap s; out := out s; local_gdf := l |} frame Hl (fun st _ => Hno st) Hped Hne Hdeg).
  rewrite (Hno InSvgSave). reflexivity.
Qed.

Lemma export_to_svg_pedestrian (l : loc) (path data_type : string) (s : State)
    (frame : GeoDataFrame) :
  heap s !! l = Some frame ->
  (forall st, raises st = None) ->
  is_pedestrian data_type = true ->
  empty (keep_drawable frame) = false ->
  degenerate (total_bounds (shapes (keep_drawable frame))) = false ->
  export_to_svg centroid py_str raises l path data_type s
  = (Ok tt,
     {| heap := heap s ++
                [keep_drawable frame;
                 set_geometry (keep_drawable frame)
                   (spread_blocks centroid move_ratio (shapes (keep_drawable frame)))];
        out := out s ++
               [SvgSaved path
                  (mkDrawing (svg_width, svg_height)
                     (flat_map
                        (draw_geometry
                           (placement
                              (total_bounds
                                 (spread_blocks centroid move_ratio
                                    (shapes (keep_drawable frame))))) 2)
                        (spread_blocks centroid move_ratio
                           (shapes (keep_drawable frame)))));
                Printed ("SVG file generated: " ++ path)];
        local_gdf := S (length (heap s)) |}).
Proof.
  intros Hl Hno Hped Hne Hdeg.
  unfold export_to_svg, try_except. rewrite run_set_gdf.
  rewrite (try_pedestrian l path data_type
             {| heap := heap s; out := out s; local_gdf := l |} frame Hl (fun st _ => Hno st) Hped Hne Hdeg).
  rewrite (Hno InSvgSave). reflexivity.
Qed.

(** A failure before [gdf] is rebound: the except block hands the
    caller's own object to [export_to_html]. *)
Lemma export_to_svg_fails_early (l : loc) (path data_type : string) (s : State)
    (e : exn) :
  raises InTypeFilter = Some e ->
  export_to_svg centroid py_str raises l path data_type s
  = export_to_html py_str raises l (str_replace ".svg" ".html" path)
      {| heap := heap s;
         out := out s ++
                [Printed ("Warning: Error generating SVG file: " ++ exn_msg e);
                 Printed "Will use HTML format instead."];
         local_gdf := l |}.
Proof.
  intros Hf. unfold export_to_svg, try_except. rewrite run_set_gdf.
  unfold export_to_svg_try. cbv zeta.
  rewrite (run_at_site_raise raises InTypeFilter e) by exact Hf.
  unfold export_to_svg_except, print. rewrite !run_emit, run_get_gdf.
  cbn [heap out local_gdf]. rewrite <- app_assoc. reflexivity.
Qed.

(** A failure to save the drawing of polygon data: the except block
    hands the moved copy, not the caller's object, to [export_to_html]. *)
Lemma export_to_svg_fails_at_save (l : loc) (path data_type : string) (s : State)
    (frame : GeoDataFrame) (e : exn) :
  heap s !! l = Some frame ->
  (forall st, st <> InSvgSave -> raises st = None) ->
  raises InSvgSave = Some e ->
  is_pedestrian data_type = true ->
  empty (keep_drawable frame) = false ->
  degenerate (total_bounds (shapes (keep_drawable frame))) = false ->
  export_to_svg centroid py_str raises l path data_type s
  = export_to_html py_str raises (S (length (heap s)))
      (str_replace ".svg" ".html" path)
      {| heap := heap s ++
                 [keep_drawable frame;
                  set_geometry (keep_drawable frame)
                    (spread_blocks centroid move_ratio (shapes (keep_drawable frame)))];
         out := out s ++
                [Printed ("Warning: Error generating SVG file: " ++ exn_msg e);
                 Printed "Will use HTML format instead."];
         local_gdf := S (length (heap s)) |}.
Proof.
  intros Hl Hno Hsave Hped Hne Hdeg.
  unfold export_to_svg, try_except. rewrite run_set_gdf.
  rewrite (try_pedestrian l path data_type
             {| heap := heap s; out := out s; local_gdf := l |} frame Hl Hno Hped Hne Hdeg).
  rewrite Hsave. cbn [heap out local_gdf].
  unfold export_to_svg_except, print. rewrite !run_emit, run_get_gdf.
  cbn [heap out local_gdf]. rewrite <- app_assoc. reflexivity.
Qed.

(** C2, as the code has it.  When the bounding box of the drawable rows
    has zero width or zero height (and no library call has failed before
    the test), [export_to_svg] prints its message and returns normally:
    nothing is drawn, and nothing is handed to the HTML export either.
    The only trace of the call is the filtered frame it allocated. *)
Theorem degenerate_extent_aborts (l : loc) (path data_type : string) (s : State)
    (frame : GeoDataFrame) :
  heap s !! l = Some frame ->
  raises InTypeFilter = None ->
  raises InBounds = None ->
  empty (keep_drawable frame) = false ->
  degenerate (total_bounds (shapes (keep_drawable frame))) = true ->
  export_to_svg centroid py_str raises l path data_type s
  = (Ok tt,
     {| heap := heap s ++ [keep_drawable frame];
        out := out s ++ [Printed "Data range too small, cannot generate valid SVG."];
        local_gdf := length (heap s) |}).
Proof.
  intros Hl Hf Hb Hne Hdeg.
  unfold export_to_svg, try_except. rewrite run_set_gdf.
  svg_prologue l frame Hl Hf Hne.
  rewrite (run_at_site_ok raises InBounds) by exact Hb.
  rewrite Hdeg. reflexivity.
Qed.

(** C5. For pedestrian data every drawable geometry is translated by
    (its centroid - the global centroid) * 0.2, the global centroid being
    the plain mean of the centroids of the features; the bounding box and
    the scale that place the coordinates on the canvas are those of the
    translated geometries, and the polylines written are the translated
    geometries under that placement. *)
Theorem spacing_then_rescale (l : loc) (path data_type : string) (s : State)
    (frame : GeoDataFrame) :
  heap s !! l = Some frame ->
  (forall st, raises st = None) ->
  is_pedestrian data_type = true ->
  empty (keep_drawable frame) = false ->
  degenerate (total_bounds (shapes (keep_drawable frame))) = false ->
  spread_blocks centroid move_ratio (shapes (keep_drawable frame))
    = spread_spec centroid 0.2 (shapes (keep_drawable frame))
  /\ fst (export_to_svg centroid py_str raises l path data_type s) = Ok tt
  /\ svg_exports (out (snd (export_to_svg centroid py_str raises l path data_type s)))
     = svg_exports (out s) ++
       [(path,
         mkDrawing (svg_width, svg_height)
           (flat_map
              (draw_geometry
                 (placement
                    (total_bounds
                       (spread_spec centroid 0.2 (shapes (keep_drawable frame)))))
                 2)
              (spread_spec centroid 0.2 (shapes (keep_drawable frame)))))].
Proof.
  intros Hl Hno Hped Hne Hdeg.
  rewrite (export_to_svg_pedestrian l path data_type s frame Hl Hno Hped Hne Hdeg).
  rewrite spread_blocks_spec. split; [reflexivity|]. split; [reflexivity|].
  cbn [snd out]. unfold svg_exports. rewrite flat_map_app. reflexivity.
Qed.

End SvgFacts.

(** C2, as the spec has it, fails: on a single street running due east
    the extent is degenerate, and the call writes no document at all,
    where the spec wants exactly one HTML document. *)
Lemma degenerate_extent_counterexample :
  degenerate (total_bounds (shapes (keep_drawable flat_street))) = true
  /\ export_to_svg area_centroid plain_str no_fault 0 "flat.svg" "traffic"
       (fresh_state flat_street)
     = (Ok tt,
        {| heap := [flat_street; flat_street];
           out := [Printed "Data range too small, cannot generate valid SVG."];
           local_gdf := 1 |})
  /\ length (html_exports
               (out (snd (export_to_svg area_centroid plain_str no_fault 0
                            "flat.svg" "traffic" (fresh_state flat_street)))))
     <> 1%nat.
Proof.
  split; [reflexivity|]. split; [reflexivity|]. discriminate.
Qed.

Lemma degenerate_extent_aborts_witness :
  export_to_svg area_centroid plain_str unwritable_svg 0 "flat.svg" "pedestrian"
    (fresh_state flat_street)
  = (Ok tt,
     {| heap := [flat_street] ++ [keep_drawable flat_street];
        out := [] ++ [Printed "Data range too small, cannot generate valid SVG."];
        local_gdf := 1 |}).
Proof.
  exact (degenerate_extent_aborts area_centroid plain_str unwritable_svg
           0 "flat.svg" "pedestrian" (fresh_state flat_street) flat_street
           eq_refl eq_refl eq_refl eq_refl eq_refl).
Defined.

Lemma spacing_then_rescale_witness :
  fst (export_to_svg area_centroid plain_str no_fault 0 "blocks.svg" "pedestrian"
         (fresh_state blocks)) = Ok tt
  /\ svg_exports
       (out (snd (export_to_svg area_centroid plain_str no_fault 0 "blocks.svg"
                    "pedestrian" (fresh_state blocks))))
     = svg_exports [] ++
       [("blocks.svg",
         mkDrawing (svg_width, svg_height)
           (flat_map
              (draw_geometry
                 (placement
                    (total_bounds
                       (spread_spec area_centroid 0.2 (shapes (keep_drawable blocks)))))
                 2)
              (spread_spec area_centroid 0.2 (shapes (keep_drawable blocks)))))].
Proof.
  exact (proj2 (spacing_then_rescale area_centroid plain_str no_fault
                  0 "blocks.svg" "pedestrian" (fresh_state blocks) blocks
                  eq_refl (fun _ => eq_refl) eq_refl eq_refl eq_refl)).
Defined.

(** C7 at work.  Two sidewalk blocks, pedestrian data, and a drawing file
    that cannot be written: the failure is caught and logged and an HTML
    map is written instead, but from the copy whose blocks the spacing
    adjustment has moved: the first block, whose shell starts at x = 0 in
    the data, starts at x = -3/10 in the map. *)
Lemma fallback_exports_moved_copy :
  shapes blocks
  = [Polygon [(0, 0); (0 + 1, 0); (0 + 1, 0 + 1); (0, 0 + 1); (0, 0)]%Q [];
     Polygon [(3, 0); (3 + 1, 0); (3 + 1, 0 + 1); (3, 0 + 1); (3, 0)]%Q []]
  /\ fst (export_to_svg area_centroid plain_str unwritable_svg 0 "blocks.svg"
            "pedestrian" (fresh_state blocks)) = Ok tt
  /\ out (snd (export_to_svg area_centroid plain_str unwritable_svg 0 "blocks.svg"
                 "pedestrian" (fresh_state blocks)))
     = [Printed "Warning: Error generating SVG file: Permission denied";
        Printed "Will use HTML format instead.";
        HtmlSaved "blocks.html"
          (set_geometry blocks
             (spread_blocks area_centroid move_ratio (shapes blocks)));
        BrowserOpened "file://blocks.html"]
  /\ match spread_blocks area_centroid move_ratio (shapes blocks) with
     | Polygon (p :: _) _ :: _ => (fst p == - (3 # 10))%Q
     | _ => False
     end.
Proof.
  split; [reflexivity|]. split; [reflexivity|]. split; [reflexivity|].
  vm_compute. reflexivity.
Qed.


(** * The placement on the canvas *)

Local Open Scope Q_scope.

Lemma py_min_cases (a b : Q) :
  (a <= b /\ py_min a b = a) \/ (b < a /\ py_min a b = b).
Proof.
  unfold py_min. destruct (b ?= a) eqn:E.
  - left. split; [|reflexivity]. apply Qeq_alt in E. rewrite E. apply Qle_refl.
  - right. split; [|reflexivity]. apply Qlt_alt. exact E.
  - left. split; [|reflexivity]. apply Qlt_le_weak, Qgt_alt. exact E.
Qed.

Lemma grow_covers (b : bbox) (p : coord) : covers (grow b p) b /\ inside (grow b p) p.
Proof.
  unfold covers, inside, grow; simpl.
  repeat split; auto using Q.le_min_l, Q.le_min_r, Q.le_max_l, Q.le_max_r.
Qed.

Lemma fold_grow_covers (ps : list coord) :
  forall b0, covers (fold_left grow ps b0) b0
             /\ forall p, In p ps -> inside (fold_left grow ps b0) p.
Proof.
  induction ps as [|q ps IH]; intros b0; simpl.
  - split; [|intros p []]. unfold covers. repeat split; apply Qle_refl.
  - destruct (IH (grow b0 q)) as [Hc Hin].
    destruct (grow_covers b0 q) as [Hc0 Hq].
    unfold covers, inside in *. split.
    + intuition lra.
    + intros p [<-|Hp]; [|apply Hin, Hp]. intuition lra.
Qed.

Lemma bounds_of_inside (cs : list coord) (b : bbox) :
  bounds_of cs = Some b -> forall p, In p cs -> inside b p.
Proof.
  destruct cs as [|q cs]; [discriminate|]. simpl. intros [= <-] p Hp.
  destruct (fold_grow_covers cs (mkBox (fst q) (snd q) (fst q) (snd q))) as [Hc Hin].
  destruct Hp as [<-|Hp]; [|apply Hin, Hp].
  unfold covers, inside in *; simpl in *. intuition lra.
Qed.

Lemma bounds_of_ordered (cs : list coord) (b : bbox) :
  bounds_of cs = Some b -> 0 <= width b /\ 0 <= height b.
Proof.
  intros Hb. destruct cs as [|q cs]; [discriminate|].
  pose proof (bounds_of_inside _ _ Hb q (or_introl eq_refl)) as Hq.
  unfold inside, width, height in *. lra.
Qed.

Lemma total_bounds_inside (gs : list geometry) (b : bbox) :
  total_bounds gs = Some b ->
  forall g p, In g gs -> In p (geom_coords g) -> inside b p.
Proof.
  intros Hb g p Hg Hp. apply (bounds_of_inside _ _ Hb).
  apply in_concat. exists (geom_coords g). split; [|exact Hp].
  apply in_map, Hg.
Qed.

Lemma nondegenerate_positive (gs : list geometry) (b : bbox) :
  total_bounds gs = Some b -> degenerate (Some b) = false ->
  0 < width b /\ 0 < height b.
Proof.
  intros Hb Hd. destruct (bounds_of_ordered _ _ Hb) as [Hw Hh].
  simpl in Hd. apply orb_false_elim in Hd as [Hw0 Hh0].
  assert (~ width b == 0) as Hw1
    by (intros E; apply Qeq_bool_iff in E; congruence).
  assert (~ height b == 0) as Hh1
    by (intros E; apply Qeq_bool_iff in E; congruence).
  split; apply Qle_lteq in Hw, Hh.
  - destruct Hw as [?|E]; [assumption|]. symmetry in E. contradiction.
  - destruct Hh as [?|E]; [assumption|]. symmetry in E. contradiction.
Qed.

Lemma canvas_scale_fits (b : bbox) :
  0 < width b -> 0 < height b ->
  0 < canvas_scale b
  /\ width b * canvas_scale b <= svg_width - 2 * margin
  /\ height b * canvas_scale b <= svg_height - 2 * margin
  /\ (width b * canvas_scale b == svg_width - 2 * margin
      \/ height b * canvas_scale b == svg_height - 2 * margin).
Proof.
  intros Hw Hh. unfold canvas_scale, svg_width, svg_height, margin.
  set (sx := (1000 - 2 * 40) / width b).
  set (sy := (1000 - 2 * 40) / height b).
  assert (width b * sx == 920) as Hsx by (unfold sx; field; lra).
  assert (height b * sy == 920) as Hsy by (unfold sy; field; lra).
  assert (0 < sx) as Px by (apply (Qmult_lt_l _ _ (width b)); [assumption|lra]). 
  assert (0 < sy) as Py by (apply (Qmult_lt_l _ _ (height b)); [assumption|lra]). 
  destruct (py_min_cases sx sy) as [[Hle ->]|[Hlt ->]].
  - assert (height b * sx <= height b * sy) by (apply Qmult_le_l; assumption).
    split; [lra|]. split; [lra|]. split; [lra|]. left. lra.
  - assert (width b * sy <= width b * sx)
      by (apply Qmult_le_l; [assumption|apply Qlt_le_weak; assumption]).
    split; [lra|]. split; [lra|]. split; [lra|]. right. lra.
Qed.

Lemma canvas_scale_axis (b : bbox) :
  0 < width b -> 0 < height b ->
  (width b * canvas_scale b == svg_width - 2 * margin
   <-> (svg_width - 2 * margin) / width b <= (svg_height - 2 * margin) / height b)
  /\ (height b * canvas_scale b == svg_height - 2 * margin
      <-> (svg_height - 2 * margin) / height b <= (svg_width - 2 * margin) / width b).
Proof.
  intros Hw Hh. unfold canvas_scale, svg_width, svg_height, margin.
  set (sx := (1000 - 2 * 40) / width b).
  set (sy := (1000 - 2 * 40) / height b).
  assert (width b * sx == 920) as Hsx by (unfold sx; field; lra).
  assert (height b * sy == 920) as Hsy by (unfold sy; field; lra).
  destruct (py_min_cases sx sy) as [[Hle ->]|[Hlt ->]]; split; split; intros H.
  - exact Hle.
  - lra.
  - assert (height b * (sy - sx) == 0) as Hz by lra.
    apply Qmult_integral in Hz. destruct Hz; lra.
  - assert (sx == sy) as E by lra. rewrite E. lra.
  - assert (width b * (sx - sy) == 0) as Hz by lra.
    apply Qmult_integral in Hz. destruct Hz; lra.
  - lra.
  - lra.
  - lra.
Qed.

Lemma draw_geometry_points (T : coord -> coord) (line_width : Z) (g : geometry)
    (pl : polyline) (q : coord) :
  In pl (draw_geometry T line_width g) -> In q (points pl) ->
  exists p, In p (geom_coords g) /\ q = T p.
Proof.
  assert (forall cs, In pl (draw_line T line_width cs) -> In q (points pl) ->
                     exists p, In p cs /\ q = T p) as Hline.
  { intros cs Hpl Hq. unfold draw_line in Hpl.
    destruct (1 <? length (map T cs))%nat; [|destruct Hpl].
    destruct Hpl as [<-|[]]. simpl in Hq. apply in_map_iff in Hq.
    destruct Hq as (p & <- & Hp). eauto. }
  assert (forall cs, In pl (draw_ring T line_width cs) -> In q (points pl) ->
                     exists p, In p cs /\ q = T p) as Hring.
  { intros cs [<-|[]] Hq. simpl in Hq. apply in_map_iff in Hq.
    destruct Hq as (p & <- & Hp). eauto. }
  destruct g as [cs|ls|ext ints|ps|p|ps]; simpl; intros Hpl Hq;
    try (destruct Hpl; fail).
  - apply Hline; assumption.
  - apply in_flat_map in Hpl. destruct Hpl as (cs & Hcs & Hpl).
    destruct (Hline cs Hpl Hq) as (p & Hp & ->).
    exists p. split; [|reflexivity]. apply in_concat. eauto.
  - apply Hring; assumption.
  - apply in_flat_map in Hpl. destruct Hpl as (poly & Hpoly & Hpl).
    destruct (Hring (fst poly) Hpl Hq) as (p & Hp & ->).
    exists p. split; [|reflexivity]. apply in_concat.
    exists (fst poly). split; [apply in_map, Hpoly|exact Hp].
Qed.

(** C3, as the code has it.  With the bounding box [b] of a drawable
    collection of non-zero width and height, a point (x, y) is placed at
    ((x - minX) * scale + margin, (maxY - y) * scale + margin), where
    scale is the smaller of (1000 - 2*40) / width and (1000 - 2*40) /
    height.  The corner (minX, maxY) lands exactly on (margin, margin);
    the opposite corner lands on (margin + width * scale, margin + height
    * scale), which is within the margins on both axes and touches the far
    margin of an axis exactly when the scale of that axis is the smaller
    one (or both are equal).  Every point of every polyline drawn is the
    image of a coordinate of the collection and lies within the
    margins. *)
Theorem canvas_placement (gs : list geometry) (b : bbox) :
  total_bounds gs = Some b ->
  degenerate (Some b) = false ->
  let scale := py_min ((svg_width - 2 * margin) / width b)
                      ((svg_height - 2 * margin) / height b) in
  (forall p, placement (Some b) p
             = ((fst p - minx b) * scale + margin,
                (maxy b - snd p) * scale + margin))
  /\ same_point (placement (Some b) (minx b, maxy b)) (margin, margin)
  /\ same_point (placement (Some b) (minx b, miny b))
       (margin, margin + height b * scale)
  /\ same_point (placement (Some b) (maxx b, maxy b))
       (margin + width b * scale, margin)
  /\ same_point (placement (Some b) (maxx b, miny b))
       (margin + width b * scale, margin + height b * scale)
  /\ margin + width b * scale <= svg_width - margin
  /\ margin + height b * scale <= svg_height - margin
  /\ (margin + width b * scale == svg_width - margin
      <-> (svg_width - 2 * margin) / width b <= (svg_height - 2 * margin) / height b)
  /\ (margin + height b * scale == svg_height - margin
      <-> (svg_height - 2 * margin) / height b <= (svg_width - 2 * margin) / width b)
  /\ (forall g p, In g gs -> In p (geom_coords g) ->
        margin <= fst (placement (Some b) p) <= svg_width - margin
        /\ margin <= snd (placement (Some b) p) <= svg_height - margin)
  /\ (forall line_width g pl q,
        In g gs -> In pl (draw_geometry (placement (Some b)) line_width g) ->
        In q (points pl) ->
        (exists p, In p (geom_coords g) /\ q = placement (Some b) p)
        /\ margin <= fst q <= svg_width - margin
        /\ margin <= snd q <= svg_height - margin).
Proof.
  intros Hb Hd scale.
  destruct (nondegenerate_positive gs b Hb Hd) as [Hw Hh].
  destruct (canvas_scale_fits b Hw Hh) as (Hs & Hfx & Hfy & _).
  destruct (canvas_scale_axis b Hw Hh) as (Hax & Hay).
  change (canvas_scale b) with scale in *.
  assert (forall p, placement (Some b) p
                    = ((fst p - minx b) * scale + margin,
                       (maxy b - snd p) * scale + margin)) as Hp
    by reflexivity.
  split; [exact Hp|].
  unfold same_point. rewrite !Hp. cbn [fst snd]. unfold width, height in *.
  split; [split; ring|]. split; [split; ring|]. split; [split; ring|].
  split; [split; ring|]. split; [lra|]. split; [lra|].
  split; [rewrite <- Hax; split; intros E; lra|].
  split; [rewrite <- Hay; split; intros E; lra|].
  assert (forall g p, In g gs -> In p (geom_coords g) ->
            margin <= (fst p - minx b) * scale + margin <= svg_width - margin
            /\ margin <= (maxy b - snd p) * scale + margin <= svg_height - margin)
    as Hbox; [|split; [exact Hbox|]].
  2: { intros line_width g pl q Hg Hpl Hq.
       destruct (draw_geometry_points _ _ _ _ _ Hpl Hq) as (p & Hin & ->).
       split; [exists p; split; [exact Hin|reflexivity]|].
       rewrite Hp. cbn [fst snd]. apply (Hbox g p Hg Hin). }
  intros g p Hg Hin.
  destruct (total_bounds_inside gs b Hb g p Hg Hin) as (H1 & H2 & H3 & H4).
  assert (0 <= (fst p - minx b) * scale) by (apply Qmult_le_0_compat; lra).
  assert (0 <= (maxy b - snd p) * scale) by (apply Qmult_le_0_compat; lra).
  assert ((fst p - minx b) * scale <= (maxx b - minx b) * scale)
    by (apply Qmult_le_compat_r; lra).
  assert ((maxy b - snd p) * scale <= (maxy b - miny b) * scale)
    by (apply Qmult_le_compat_r; lra).
  lra.
Qed.

(** C3, as the spec has it, fails on a box twice as wide as high: the
    scale is 460, and the corner (minX, minY) is placed at (40, 500), not
    at (margin, canvasHeight - margin) = (40, 960). *)
Lemma corner_counterexample :
  total_bounds diagonal = Some (mkBox 0 0 2 1)
  /\ degenerate (Some (mkBox 0 0 2 1)) = false
  /\ same_point (placement (Some (mkBox 0 0 2 1)) (0, 0)) (margin, 500)
  /\ ~ same_point (placement (Some (mkBox 0 0 2 1)) (0, 0))
         (margin, svg_height - margin).
Proof.
  split; [reflexivity|]. split; [reflexivity|].
  split; [split; reflexivity|].
  intros [_ H]. vm_compute in H. discriminate H.
Qed.

Lemma canvas_placement_witness :
  same_point (placement (Some (mkBox 0 0 2 1)) (0, 1)) (margin, margin)
  /\ same_point (placement (Some (mkBox 0 0 2 1)) (2, 0))
       (margin + width (mkBox 0 0 2 1) * canvas_scale (mkBox 0 0 2 1),
        margin + height (mkBox 0 0 2 1) * canvas_scale (mkBox 0 0 2 1)).
Proof.
  pose proof (canvas_placement diagonal (mkBox 0 0 2 1) eq_refl eq_refl) as H.
  cbv zeta in H.
  split; [exact (proj1 (proj2 H))|].
  exact (proj1 (proj2 (proj2 (proj2 (proj2 H))))).
Defined.


(** * The spacing adjustment *)

Lemma shift_zero (xoff yoff : Q) (cs : list coord) :
  xoff == 0 -> yoff == 0 -> same_coords (map (shift xoff yoff) cs) cs.
Proof.
  intros Hx Hy. induction cs as [|p cs IH]; simpl; constructor; [|exact IH].
  unfold same_point, shift; simpl. rewrite Hx, Hy. split; ring.
Qed.

Lemma shift_zero_rings (xoff yoff : Q) (ls : list (list coord)) :
  xoff == 0 -> yoff == 0 ->
  Forall2 same_coords (map (map (shift xoff yoff)) ls) ls.
Proof.
  intros Hx Hy. induction ls as [|l ls IH]; simpl; constructor;
    [apply shift_zero; assumption|exact IH].
Qed.

Lemma translate_zero (g : geometry) (xoff yoff : Q) :
  xoff == 0 -> yoff == 0 -> same_geometry (translate g xoff yoff) g.
Proof.
  intros Hx Hy. destruct g as [cs|ls|ext ints|ps|p|ps]; simpl.
  - apply shift_zero; assumption.
  - apply shift_zero_rings; assumption.
  - split; [apply shift_zero|apply shift_zero_rings]; assumption.
  - induction ps as [|q ps IH]; simpl; constructor; [|exact IH].
    simpl. split; [apply shift_zero|apply shift_zero_rings]; assumption.
  - unfold same_point, shift; simpl. rewrite Hx, Hy. split; ring.
  - apply shift_zero; assumption.
Qed.

Lemma dist2_scaled (c c' G : coord) (r : Q) :
  same_point c' (shift ((fst c - fst G) * r) ((snd c - snd G) * r) c) ->
  dist2 c' G == (1 + r) * (1 + r) * dist2 c G.
Proof.
  intros [Hx Hy]. unfold dist2. simpl in Hx, Hy. rewrite Hx, Hy. ring.
Qed.

Lemma square_positive (u : Q) : ~ u == 0 -> 0 < u * u.
Proof.
  intros Hu. destruct (Q_dec u 0) as [[H|H]|H]; [nra|nra|contradiction].
Qed.

Lemma square_nonneg (u : Q) : 0 <= u * u.
Proof. nra. Qed.

Lemma dist2_positive (c G : coord) : ~ same_point c G -> 0 < dist2 c G.
Proof.
  intros Hne. unfold same_point in Hne. unfold dist2.
  pose proof (square_nonneg (fst c - fst G)) as Hx.
  pose proof (square_nonneg (snd c - snd G)) as Hy.
  destruct (Qeq_dec (fst c) (fst G)) as [Ex|Nx].
  - destruct (Qeq_dec (snd c) (snd G)) as [Ey|Ny]; [tauto|].
    assert (0 < (snd c - snd G) * (snd c - snd G))
      by (apply square_positive; lra).
    lra.
  - assert (0 < (fst c - fst G) * (fst c - fst G))
      by (apply square_positive; lra).
    lra.
Qed.

Section Spacing.
Variable centroid : geometry -> coord.

Lemma spread_blocks_lookup (ratio : Q) (gs : list geometry) (i : nat) (g : geometry) :
  gs !! i = Some g ->
  spread_blocks centroid ratio gs !! i
  = Some (translate g
            ((fst (centroid g) - fst (global_centroid centroid gs)) * ratio)
            ((snd (centroid g) - snd (global_centroid centroid gs)) * ratio)).
Proof.
  intros Hi. rewrite spread_blocks_spec. unfold spread_spec.
  change (map ?f ?l) with (f <$> l).
  rewrite list_lookup_fmap, Hi. reflexivity.
Qed.

(** C9. With ratio 0 the spacing adjustment returns the geometries it
    was given, coordinate for coordinate.  With a ratio above 0, a
    feature whose centroid is not the global centroid is translated so
    that its centroid ends strictly further from the global centroid
    (the centroid being one that moves along with a translation of its
    geometry, as every centroid does). *)
Theorem spacing_moves_away (gs : list geometry) :
  Forall2 same_geometry (spread_blocks centroid 0 gs) gs
  /\ forall (ratio : Q) (i : nat) (g : geometry),
       0 < ratio ->
       gs !! i = Some g ->
       ~ same_point (centroid g) (global_centroid centroid gs) ->
       let dx := (fst (centroid g) - fst (global_centroid centroid gs)) * ratio in
       let dy := (snd (centroid g) - snd (global_centroid centroid gs)) * ratio in
       same_point (centroid (translate g dx dy)) (shift dx dy (centroid g)) ->
       spread_blocks centroid ratio gs !! i = Some (translate g dx dy)
       /\ dist2 (centroid g) (global_centroid centroid gs)
          < dist2 (centroid (translate g dx dy)) (global_centroid centroid gs).
Proof.
  split.
  - rewrite spread_blocks_spec. unfold spread_spec.
    generalize (global_centroid centroid gs) as G. intros G.
    induction gs as [|g gs' IH]; simpl; constructor; [|exact IH].
    apply translate_zero; ring.
  - intros ratio i g Hr Hi Hne dx dy Heq.
    split; [apply spread_blocks_lookup, Hi|].
    rewrite (dist2_scaled _ _ _ ratio Heq).
    pose proof (dist2_positive _ _ Hne) as Hpos.
    nra.
Qed.

Lemma sum_pushed {X : Type} (f f' : X -> Q) (G r : Q) (l : list X) :
  (forall x, In x l -> f' x == f x + (f x - G) * r) ->
  fold_right Qplus 0 (map f' l)
  == (1 + r) * fold_right Qplus 0 (map f l)
     - inject_Z (Z.of_nat (length l)) * G * r.
Proof.
  induction l as [|x l IH]; intros H.
  - simpl. ring.
  - cbn [map fold_right length]. rewrite IH by (intros y Hy; apply H; right; exact Hy).
    rewrite (H x (or_introl eq_refl)).
    rewrite Nat2Z.inj_succ, <- Z.add_1_r, inject_Z_plus. simpl (inject_Z 1). ring.
Qed.

Lemma mean_pushed {X : Type} (f f' : X -> Q) (r : Q) (l : list X) :
  l <> [] ->
  (forall x, In x l -> f' x == f x + (f x - mean (map f l)) * r) ->
  mean (map f' l) == mean (map f l).
Proof.
  intros Hne H. unfold mean at 1. rewrite (sum_pushed f f' _ r l H).
  unfold mean. rewrite !length_map.
  assert (~ inject_Z (Z.of_nat (length l)) == 0) as Hn.
  { destruct l as [|x l]; [contradiction|].
    intros E. change 0 with (inject_Z 0) in E. apply inject_Z_injective in E.
    simpl in E. discriminate E. }
  field. exact Hn.
Qed.

(** The adjustment leaves the global centroid where it was. *)
Lemma global_centroid_fixed (ratio : Q) (gs : list geometry) :
  gs <> [] ->
  (forall g, In g gs ->
     let dx := (fst (centroid g) - fst (global_centroid centroid gs)) * ratio in
     let dy := (snd (centroid g) - snd (global_centroid centroid gs)) * ratio in
     same_point (centroid (translate g dx dy)) (shift dx dy (centroid g))) ->
  same_point (global_centroid centroid (spread_blocks centroid ratio gs))
             (global_centroid centroid gs).
Proof.
  intros Hne H. rewrite spread_blocks_spec.
  unfold spread_spec, global_centroid at 1 4, same_point. cbn [fst snd].
  rewrite !map_map. split.
  - apply (mean_pushed (fun g => fst (centroid g)) _ ratio gs Hne).
    intros g Hg. apply (H g Hg).
  - apply (mean_pushed (fun g => snd (centroid g)) _ ratio gs Hne).
    intros g Hg. apply (H g Hg).
Qed.
End Spacing.


Lemma spacing_moves_away_witness :
  spread_blocks area_centroid 0.2 (shapes blocks) !! 0%nat
  = Some (translate first_block
            ((fst (area_centroid first_block)
              - fst (global_centroid area_centroid (shapes blocks))) * 0.2)
            ((snd (area_centroid first_block)
              - snd (global_centroid area_centroid (shapes blocks))) * 0.2))
  /\ dist2 (area_centroid first_block)
        (global_centroid area_centroid (shapes blocks))
     < dist2 (area_centroid
                (translate first_block
                   ((fst (area_centroid first_block)
                     - fst (global_centroid area_centroid (shapes blocks))) * 0.2)
                   ((snd (area_centroid first_block)
                     - snd (global_centroid area_centroid (shapes blocks))) * 0.2)))
         (global_centroid area_centroid (shapes blocks)).
Proof.
  apply (proj2 (spacing_moves_away area_centroid (shapes blocks))
           0.2 0%nat first_block eq_refl eq_refl).
  - intros [Hx _]. vm_compute in Hx. discriminate Hx.
  - split; vm_compute; reflexivity.
Defined.

(** * Further properties of the program *)

Local Close Scope Q_scope.
Local Open Scope string_scope.
Local Open Scope list_scope.

(** ** The geocoder and the ways [extract_street_data] ends *)

Lemma geocode_loop_some (w : World) (address : string) (attempts : list nat)
    (p : coord) :
  geocode_loop w address attempts = Some p <->
  exists before i after,
    attempts = before ++ i :: after
    /\ geocode w address i = Located (fst p) (snd p)
    /\ forall j, In j before -> forall lon lat, geocode w address j <> Located lon lat.
Proof.
  revert p. induction attempts as [|i rest IH]; intros p; cbn [geocode_loop].
  - split; [discriminate|]. intros (before & i & after & E & _).
    destruct before; discriminate E.
  - split.
    + destruct (geocode w address i) as [lon lat| |msg] eqn:Ei.
      * intros [= <-]. exists [], i, rest. cbn. repeat split; auto.
      * intros H. apply IH in H as (before & k & after & -> & Hk & Hb).
        exists (i :: before), k, after. repeat split; [exact Hk|].
        intros j [<-|Hj]; [rewrite Ei; discriminate|auto].
      * intros H. apply IH in H as (before & k & after & -> & Hk & Hb).
        exists (i :: before), k, after. repeat split; [exact Hk|].
        intros j [<-|Hj]; [rewrite Ei; discriminate|auto].
    + intros (before & k & after & E & Hk & Hb).
      destruct before as [|b before]; cbn [app] in E; injection E as -> ->.
      * rewrite Hk. destruct p; reflexivity.
      * assert (geocode_loop w address (before ++ k :: after) = Some p) as Hrest.
        { apply IH. exists before, k, after. repeat split; [exact Hk|].
          intros j Hj. apply Hb. right. exact Hj. }
        pose proof (Hb b (or_introl eq_refl)) as Hne.
        destruct (geocode w address b) as [lon lat| |msg];
          [destruct (Hne lon lat eq_refl)|exact Hrest|exact Hrest].
Qed.

Lemma geocode_loop_none (w : World) (address : string) (attempts : list nat) :
  geocode_loop w address attempts = None <->
  forall j, In j attempts -> forall lon lat, geocode w address j <> Located lon lat.
Proof.
  induction attempts as [|i rest IH]; cbn [geocode_loop].
  - split; [intros _ j []|reflexivity].
  - destruct (geocode w address i) as [lon lat| |msg] eqn:Ei.
    + split; [discriminate|]. intros H. destruct (H i (or_introl eq_refl) lon lat Ei).
    + rewrite IH. split.
      * intros H j [<-|Hj]; [rewrite Ei; discriminate|auto].
      * intros H j Hj. apply H. right. exact Hj.
    + rewrite IH. split.
      * intros H j [<-|Hj]; [rewrite Ei; discriminate|auto].
      * intros H j Hj. apply H. right. exact Hj.
Qed.

(** X1. The geocoder is asked at most three times: the address is found
    exactly when one of the first three replies is a location, the point
    is that of the first such reply, and no later reply is looked at. *)
Theorem geocode_three_attempts (w : World) (address : string) :
  (geocode_loop w address (seq 0 3) = None <->
   forall j, (j < 3)%nat -> forall lon lat, geocode w address j <> Located lon lat)
  /\ (forall p,
        geocode_loop w address (seq 0 3) = Some p <->
        exists i, (i < 3)%nat
                  /\ geocode w address i = Located (fst p) (snd p)
                  /\ forall j, (j < i)%nat ->
                       forall lon lat, geocode w address j <> Located lon lat)
  /\ (forall w',
        (forall j, (j < 3)%nat -> geocode w' address j = geocode w address j) ->
        geocode_loop w' address (seq 0 3) = geocode_loop w address (seq 0 3)).
Proof.
  split; [|split].
  - rewrite geocode_loop_none. split.
    + intros H j Hj. apply H. apply in_seq. lia.
    + intros H j Hj. apply in_seq in Hj. apply H. lia.
  - intros p. rewrite geocode_loop_some. split.
    + intros (before & i & after & E & Hi & Hb).
      assert (before = seq 0 (length before) /\ i = length before
              /\ (length before < 3)%nat) as (Eb & -> & Hlt).
      { clear - E. destruct before as [|b0 [|b1 [|b2 [|b3 before]]]];
          cbn in E; injection E; intros; subst; cbn; repeat split; try lia;
          discriminate. }
      exists (length before). repeat split; [exact Hlt|exact Hi|].
      intros j Hj. apply Hb. rewrite Eb. apply in_seq. lia.
    + intros (i & Hlt & Hi & Hb).
      exists (seq 0 i), i, (seq (S i) (3 - S i)). repeat split; [|exact Hi|].
      * replace 3%nat with (i + S (3 - S i))%nat at 1 by lia.
        rewrite seq_app. reflexivity.
      * intros j Hj. apply in_seq in Hj. apply Hb. lia.
  - intros w' H. cbn [seq geocode_loop].
    rewrite !H by lia. reflexivity.
Qed.

Section Outcomes.

Context {region : Type} (buffer : coord -> Q -> region)
        (intersects : geometry -> region -> bool).


End Outcomes.


(** ** The row filters *)

Section FilterAlgebra.

Context {A : Type} (p q : A -> bool).

Lemma filter_swap (l : list A) :
  List.filter p (List.filter q l) = List.filter q (List.filter p l).
Proof.
  induction l as [|x l IH]; simpl; [reflexivity|].
  destruct (p x) eqn:Hp, (q x) eqn:Hq; simpl; rewrite ?Hp, ?Hq, IH; reflexivity.
Qed.

Lemma filter_absorb (l : list A) :
  (forall x, p x = true -> q x = true) ->
  List.filter p (List.filter q l) = List.filter p l.
Proof.
  intros H. induction l as [|x l IH]; simpl; [reflexivity|].
  destruct (q x) eqn:Hq; simpl.
  - rewrite IH. reflexivity.
  - destruct (p x) eqn:Hp; [|exact IH].
    rewrite (H x Hp) in Hq. discriminate.
Qed.

End FilterAlgebra.

Section Regions.

Context {region : Type} (intersects : geometry -> region -> bool).

(** X3. The spatial filter of line 90 can be applied twice in either order
    with the same result; when every geometry that meets the first region
    meets the second, filtering by the second and then by the first
    gives what the first alone gives, and the rows of the narrower search
    are rows of the wider one, in the same order. *)
Theorem spatial_filters_compose (gdf : GeoDataFrame) (a b : region) :
  spatial_filter intersects (spatial_filter intersects gdf a) b
  = spatial_filter intersects (spatial_filter intersects gdf b) a
  /\ ((forall g, intersects g a = true -> intersects g b = true) ->
      spatial_filter intersects (spatial_filter intersects gdf b) a
      = spatial_filter intersects gdf a
      /\ sublist (rows (spatial_filter intersects gdf a))
                 (rows (spatial_filter intersects gdf b))).
Proof.
  assert (forall x y, spatial_filter intersects (spatial_filter intersects gdf x) y
                      = with_rows gdf
                          (List.filter (hits intersects y)
                             (List.filter (hits intersects x) (rows gdf)))) as Hxy.
  { intros x y. unfold spatial_filter, getitem_mask, with_rows; simpl.
    rewrite !select_mask_filter. reflexivity. }
  split.
  - rewrite !Hxy, filter_swap. reflexivity.
  - intros Hab.
    assert (forall f, hits intersects a f = true -> hits intersects b f = true)
      as Hhits.
    { intros f. unfold hits. destruct (shape f); [apply Hab|discriminate]. }
    rewrite Hxy, (filter_absorb _ _ _ Hhits). split.
    + unfold spatial_filter, getitem_mask. rewrite select_mask_filter. reflexivity.
    + rewrite !spatial_filter_rows.
      rewrite <- (filter_absorb _ _ (rows gdf) Hhits).
      apply filter_sublist_of.
Qed.

(** X4. The type filter of line 154 keeps rows of the frame, in their
    order, and every row it keeps has a geometry of one of the four kinds
    the drawing loop knows; filtering again changes nothing, and the
    filter commutes with the spatial filter. *)
Theorem keep_drawable_kinds (gdf : GeoDataFrame) (buf : region) :
  (forall f, In f (rows (keep_drawable gdf)) ->
     In f (rows gdf)
     /\ exists g, shape f = Some g
                  /\ In (geom_type g)
                       ["LineString"; "MultiLineString"; "Polygon"; "MultiPolygon"])
  /\ sublist (rows (keep_drawable gdf)) (rows gdf)
  /\ keep_drawable (keep_drawable gdf) = keep_drawable gdf
  /\ keep_drawable (spatial_filter intersects gdf buf)
     = spatial_filter intersects (keep_drawable gdf) buf.
Proof.
  assert (forall g, rows (keep_drawable g)
                    = List.filter (fun f => drawable (shape f)) (rows g)) as Hrows.
  { intros g. unfold keep_drawable, getitem_mask, geometries; simpl.
    rewrite map_map. apply (select_mask_filter (fun f => drawable (shape f))). }
  assert (forall g, keep_drawable g
                    = with_rows g (List.filter (fun f => drawable (shape f)) (rows g)))
    as Hkeep.
  { intros g. unfold keep_drawable, getitem_mask, geometries.
    rewrite map_map, (select_mask_filter (fun f => drawable (shape f))).
    reflexivity. }
  split; [|split; [|split]].
  - intros f Hf. rewrite Hrows in Hf. apply filter_In in Hf as [Hin Hd].
    split; [exact Hin|]. unfold drawable in Hd.
    destruct (shape f) as [g|]; [|discriminate].
    exists g. split; [reflexivity|].
    apply existsb_exists in Hd as (k & Hk & E).
    apply String.eqb_eq in E. rewrite E. exact Hk.
  - rewrite Hrows. apply filter_sublist_of.
  - rewrite (Hkeep (keep_drawable gdf)), Hrows, filter_twice.
    rewrite (Hkeep gdf). reflexivity.
  - rewrite (Hkeep (spatial_filter intersects gdf buf)), spatial_filter_rows.
    unfold spatial_filter at 2, getitem_mask.
    rewrite select_mask_filter, Hrows, filter_swap. reflexivity.
Qed.

End Regions.


(** ** Geometry: scaling, polylines and the placement *)

Local Open Scope Q_scope.

Lemma map_coords_compose (f h : coord -> coord) (g : geometry) :
  map_coords f (map_coords h g) = map_coords (fun p => f (h p)) g.
Proof.
  destruct g as [cs|ls|ext ints|ps|p|ps]; simpl;
    rewrite ?map_map; try reflexivity.
  - f_equal. apply map_ext. intros l. apply map_map.
  - f_equal. apply map_ext. intros l. apply map_map.
  - f_equal. apply map_ext. intros [e i]; simpl. rewrite !map_map.
    f_equal. apply map_ext. intros l. apply map_map.
Qed.

Lemma same_coords_map (f h : coord -> coord) (cs : list coord) :
  (forall p, same_point (f p) (h p)) -> same_coords (map f cs) (map h cs).
Proof. intros H. induction cs; simpl; constructor; auto. Qed.

Lemma same_rings_map (f h : coord -> coord) (ls : list (list coord)) :
  (forall p, same_point (f p) (h p)) ->
  Forall2 same_coords (map (map f) ls) (map (map h) ls).
Proof.
  intros H. induction ls; simpl; constructor; auto using same_coords_map.
Qed.

Lemma same_geometry_map (f h : coord -> coord) (g : geometry) :
  (forall p, same_point (f p) (h p)) ->
  same_geometry (map_coords f g) (map_coords h g).
Proof.
  intros H. destruct g as [cs|ls|ext ints|ps|p|ps]; simpl;
    auto using same_coords_map, same_rings_map.
  induction ps as [|q ps IH]; simpl; constructor; [|exact IH].
  simpl. auto using same_coords_map, same_rings_map.
Qed.

Lemma map_coords_id (g : geometry) : map_coords (fun p => p) g = g.
Proof.
  assert (forall ls : list (list coord), map (map (fun p => p)) ls = ls) as Hls.
  { intros ls. rewrite <- (map_id ls) at 2. apply map_ext. intros l. apply map_id. }
  destruct g as [cs|ls|ext ints|ps|p|ps]; simpl; rewrite ?map_id, ?Hls;
    try reflexivity.
  f_equal. rewrite <- (map_id ps) at 2. apply map_ext. intros [e i]; simpl.
  rewrite map_id, Hls. reflexivity.
Qed.

Lemma same_geometry_id (f : coord -> coord) (g : geometry) :
  (forall p, same_point (f p) p) -> same_geometry (map_coords f g) g.
Proof.
  intros H. rewrite <- (map_coords_id g) at 2. apply same_geometry_map, H.
Qed.

Lemma geom_coords_map_coords (f : coord -> coord) (g : geometry) :
  geom_coords (map_coords f g) = map f (geom_coords g).
Proof.
  destruct g as [cs|ls|ext ints|ps|p|ps]; simpl; try reflexivity.
  - rewrite concat_map. reflexivity.
  - rewrite concat_map, !map_map. reflexivity.
Qed.

Section Shrink.

Variable centroid : geometry -> coord.

(** X5. [shrink_polygon] moves every coordinate to the centroid plus
    [factor] times its offset from the centroid: factor 1 gives the
    geometry back, factor 0 collapses it onto its centroid, the kind of
    the geometry stays, and the squared distance of every bounding
    vertex to the centroid is multiplied by the square of the factor. *)
Theorem shrink_polygon_about_centroid (g : geometry) (factor : Q) :
  same_geometry (shrink_polygon centroid g factor)
    (map_coords
       (fun p => (fst (centroid g) + factor * (fst p - fst (centroid g)),
                  snd (centroid g) + factor * (snd p - snd (centroid g))))
       g)
  /\ (factor == 1 -> same_geometry (shrink_polygon centroid g factor) g)
  /\ (factor == 0 ->
      same_geometry (shrink_polygon centroid g factor)
        (map_coords (fun _ => centroid g) g))
  /\ geom_type (shrink_polygon centroid g factor) = geom_type g
  /\ Forall2
       (fun p' p => dist2 p' (centroid g) == factor * factor * dist2 p (centroid g))
       (geom_coords (shrink_polygon centroid g factor)) (geom_coords g).
Proof.
  unfold shrink_polygon, scale. cbv zeta.
  split; [|split; [|split; [|split]]].
  - apply same_geometry_map. intros p. unfold same_point; simpl. split; ring.
  - intros E. apply same_geometry_id. intros p. unfold same_point; simpl.
    rewrite E. split; ring.
  - intros E. apply same_geometry_map. intros p. unfold same_point; simpl.
    rewrite E. split; ring.
  - destruct g; reflexivity.
  - rewrite geom_coords_map_coords.
    induction (geom_coords g) as [|p ps IH]; simpl; constructor; [|exact IH].
    unfold dist2; simpl. ring.
Qed.

End Shrink.

(** X6. What the drawing loop of lines 209-227 writes.  Every polyline is
    blue, unfilled and of the width asked for.  A line string gives one
    polyline when it has at least two points and none otherwise, a
    multi-line string one for each of its lines of at least two points; a
    polygon gives the polyline of its shell alone, however many points
    and holes it has, a multi-polygon one shell for each member; any
    other geometry gives nothing. *)
Theorem polyline_rules (T : coord -> coord) (line_width : Z) :
  (forall g pl, In pl (draw_geometry T line_width g) ->
     stroke pl = "blue"%string /\ fill pl = "none"%string
     /\ stroke_width pl = line_width)
  /\ (forall cs, draw_geometry T line_width (LineString cs)
                 = if (2 <=? length cs)%nat
                   then [mkPolyline (map T cs) "blue" line_width "none"]
                   else [])
  /\ (forall ext ints,
        draw_geometry T line_width (Polygon ext ints)
        = [mkPolyline (map T ext) "blue" line_width "none"])
  /\ (forall ps,
        draw_geometry T line_width (MultiPolygon ps)
        = map (fun p => mkPolyline (map T (fst p)) "blue" line_width "none") ps)
  /\ (forall ls,
        draw_geometry T line_width (MultiLineString ls)
        = map (fun cs => mkPolyline (map T cs) "blue" line_width "none")
              (List.filter (fun cs => (2 <=? length cs)%nat) ls))
  /\ (forall g, drawable (Some g) = false -> draw_geometry T line_width g = []).
Proof.
  assert (forall cs, draw_line T line_width cs
                     = if (2 <=? length cs)%nat
                       then [mkPolyline (map T cs) "blue" line_width "none"]
                       else []) as Hline.
  { intros cs. unfold draw_line. rewrite length_map.
    destruct cs as [|? [|? ?]]; reflexivity. }
  split; [|split; [|split; [|split; [|split]]]].
  - intros g pl Hpl.
    assert (forall cs, In pl (draw_line T line_width cs) ->
              stroke pl = "blue"%string /\ fill pl = "none"%string
              /\ stroke_width pl = line_width) as H1.
    { intros cs H. rewrite Hline in H.
      destruct (2 <=? length cs)%nat; [|destruct H].
      destruct H as [<-|[]]. auto. }
    destruct g as [cs|ls|ext ints|ps|p|ps]; simpl in Hpl.
    + eapply H1, Hpl.
    + apply in_flat_map in Hpl as (cs & _ & H). eapply H1, H.
    + destruct Hpl as [<-|[]]. auto.
    + apply in_flat_map in Hpl as (q & _ & [<-|[]]). auto.
    + destruct Hpl.
    + destruct Hpl.
  - intros cs. apply Hline.
  - reflexivity.
  - intros ps. simpl. induction ps as [|q ps IH]; simpl; [|rewrite IH]; reflexivity.
  - intros ls. cbn [draw_geometry].
    induction ls as [|cs ls IH]; cbn [flat_map List.filter]; [reflexivity|].
    rewrite IH, Hline. destruct (2 <=? length cs)%nat; reflexivity.
  - intros g Hg. destruct g; try discriminate; reflexivity.
Qed.

(** X7. When the extent is not degenerate the placement on the canvas
    (lines 199-202) is a similarity with the y axis flipped: the scale is
    above zero, squared distances are multiplied by the square of the
    scale, a point further east lands further right, a point further
    north lands higher up (at a smaller y), and two points land together
    only if they are the same point. *)
Theorem placement_similarity (gs : list geometry) (b : bbox) :
  total_bounds gs = Some b ->
  degenerate (Some b) = false ->
  0 < canvas_scale b
  /\ forall p q,
       dist2 (placement (Some b) p) (placement (Some b) q)
       == canvas_scale b * canvas_scale b * dist2 p q
       /\ (fst p < fst q ->
           fst (placement (Some b) p) < fst (placement (Some b) q))
       /\ (snd p < snd q ->
           snd (placement (Some b) q) < snd (placement (Some b) p))
       /\ (same_point (placement (Some b) p) (placement (Some b) q)
           -> same_point p q).
Proof.
  intros Hb Hd.
  destruct (nondegenerate_positive gs b Hb Hd) as [Hw Hh].
  destruct (canvas_scale_fits b Hw Hh) as (Hs & _).
  split; [exact Hs|]. intros p q.
  unfold placement, transform_coords. cbv zeta. cbn [fst snd].
  set (s := canvas_scale b) in *.
  split; [unfold dist2; cbn [fst snd]; ring|].
  split; [intros H; nra|]. split; [intros H; nra|].
  unfold same_point; cbn [fst snd]. intros [Hx Hy]. split.
  - assert ((fst p - fst q) * s == 0) as Hz by lra.
    apply Qmult_integral in Hz. destruct Hz; lra.
  - assert ((snd p - snd q) * s == 0) as Hz by lra.
    apply Qmult_integral in Hz. destruct Hz; lra.
Qed.

Section Dilation.

Variable centroid : geometry -> coord.

(** X8. The spacing adjustment is a dilation of the layout about the global
    centroid: that point stays where it was, and the offset of every
    centroid from it grows by the factor 1 + ratio, whatever the kind of
    the geometry, which stays the same. *)
Theorem spacing_dilates_layout (ratio : Q) (gs : list geometry) :
  gs <> [] ->
  (forall g, In g gs ->
     let dx := (fst (centroid g) - fst (global_centroid centroid gs)) * ratio in
     let dy := (snd (centroid g) - snd (global_centroid centroid gs)) * ratio in
     same_point (centroid (translate g dx dy)) (shift dx dy (centroid g))) ->
  same_point (global_centroid centroid (spread_blocks centroid ratio gs))
             (global_centroid centroid gs)
  /\ length (spread_blocks centroid ratio gs) = length gs
  /\ forall i g g',
       gs !! i = Some g ->
       spread_blocks centroid ratio gs !! i = Some g' ->
       geom_type g' = geom_type g
       /\ fst (centroid g') - fst (global_centroid centroid gs)
          == (1 + ratio) * (fst (centroid g) - fst (global_centroid centroid gs))
       /\ snd (centroid g') - snd (global_centroid centroid gs)
          == (1 + ratio) * (snd (centroid g) - snd (global_centroid centroid gs)).
Proof.
  intros Hne H. split; [apply global_centroid_fixed; assumption|].
  split; [apply spread_blocks_length|].
  intros i g g' Hi Hi'.
  rewrite (spread_blocks_lookup centroid ratio gs i g Hi) in Hi'.
  injection Hi' as <-.
  assert (In g gs) as Hin.
  { apply list_elem_of_In. eapply list_elem_of_lookup_2, Hi. }
  destruct (H g Hin) as [Hx Hy]. cbv zeta in Hx, Hy.
  unfold shift in Hx, Hy. cbn [fst snd] in Hx, Hy.
  split; [destruct g; reflexivity|].
  split; [rewrite Hx|rewrite Hy]; ring.
Qed.

End Dilation.


Local Close Scope Q_scope.

(** ** More on the HTML export *)

Section HtmlMore.

Variable py_str : value -> string.
Variable raises : site -> option exn.

Lemma datetime_or_object_settled (d : string) :
  datetime_or_object (if datetime_or_object d then "object" else d)
  = datetime_or_object d.
Proof. destruct (datetime_or_object d) eqn:E; [reflexivity|exact E]. Qed.

Lemma stringified_dtype (gdf : GeoDataFrame) (i : nat) :
  nth i (map snd (dtypes (stringified py_str gdf))) ""
  = if datetime_or_object (nth i (map snd (dtypes gdf)) "")
    then match dtypes gdf !! i with Some _ => "object" | None => "" end
    else nth i (map snd (dtypes gdf)) "".
Proof.
  cbn [stringified dtypes]. rewrite !nth_lookup.
  change (map snd ?l) with (snd <$> l).
  change (map ?f (dtypes gdf)) with (f <$> dtypes gdf).
  rewrite !list_lookup_fmap.
  destruct (dtypes gdf !! i) as [[n d]|]; cbn; [|reflexivity].
  destruct (datetime_or_object d); reflexivity.
Qed.

Lemma stringified_again (gdf : GeoDataFrame) :
  (forall s, py_str (VStr s) = s) ->
  stringified py_str (stringified py_str gdf) = stringified py_str gdf.
Proof.
  intros Hstr. unfold stringified at 1 3. f_equal.
  - cbn [stringified dtypes]. rewrite map_map. apply map_ext. intros [n d]; cbn [snd fst].
    destruct (datetime_or_object d) eqn:E; cbn [snd fst]; [reflexivity|].
    rewrite E. reflexivity.
  - cbn [stringified rows]. rewrite map_map. apply map_ext. intros [lb g a].
    cbn [label geom attrs]. f_equal.
    apply list_eq. intros i. rewrite !list_lookup_imap.
    destruct (a !! i) as [v|]; cbn [fmap option_fmap option_map]; [|reflexivity].
    f_equal.
    rewrite stringified_dtype.
    destruct (datetime_or_object (nth i (map snd (dtypes gdf)) "")) eqn:E.
    + destruct (dtypes gdf !! i) eqn:El.
      * cbn. unfold astype_str. rewrite Hstr. reflexivity.
      * rewrite nth_lookup in E. change (map snd ?l) with (snd <$> l) in E.
        rewrite list_lookup_fmap, El in E. discriminate E.
    + rewrite E. reflexivity.
Qed.

(** X9. A second export of the same frame finds nothing to change ([str]
    of a string being that string): the store after the second call is
    the store after the first, and when the saves succeed both documents
    hold the same frame. *)
Theorem export_to_html_idempotent (l : loc) (path path' : string) (s : State)
    (frame : GeoDataFrame) :
  heap s !! l = Some frame ->
  (forall t, py_str (VStr t) = t) ->
  heap (snd (export_to_html py_str raises l path'
               (snd (export_to_html py_str raises l path s))))
  = heap (snd (export_to_html py_str raises l path s))
  /\ (raises InHtmlSave = None ->
      html_exports
        (out (snd (export_to_html py_str raises l path'
                     (snd (export_to_html py_str raises l path s)))))
      = html_exports (out s)
        ++ [(path, stringified py_str frame); (path', stringified py_str frame)]).
Proof.
  intros Hl Hstr.
  assert (<[l := stringified py_str frame]> (heap s) !! l
          = Some (stringified py_str frame)) as Hl1.
  { apply list_lookup_insert_eq. eapply lookup_lt_Some, Hl. }
  rewrite (export_to_html_run py_str raises l path s frame Hl).
  destruct (raises InHtmlSave) as [e|] eqn:Hsave; cbn [snd].
  - rewrite (export_to_html_run py_str raises l path' _ (stringified py_str frame))
      by (cbn [heap set_heap]; exact Hl1).
    rewrite Hsave. cbn [snd set_heap heap]. split; [|discriminate].
    rewrite stringified_again by exact Hstr. apply list_insert_insert_eq.
  - rewrite (export_to_html_run py_str raises l path' _ (stringified py_str frame))
      by (cbn [heap set_heap]; exact Hl1).
    rewrite Hsave. cbn [snd heap out]. rewrite stringified_again by exact Hstr.
    split; [apply list_insert_insert_eq|]. intros _.
    unfold html_exports. rewrite !flat_map_app. cbn [flat_map app].
    rewrite <- app_assoc. reflexivity.
Qed.

(** X10. The frame after [export_to_html]: no column keeps a datetime dtype,
    every cell of a column of dtype object is a string, and the names of
    the columns, the number of rows and the width of every row are as
    before. *)
Theorem export_to_html_serialisable (l : loc) (path : string) (s : State)
    (frame : GeoDataFrame) :
  heap s !! l = Some frame ->
  exists frame',
    heap (snd (export_to_html py_str raises l path s)) !! l = Some frame'
    /\ map fst (dtypes frame') = map fst (dtypes frame)
    /\ map (fun f => length (attrs f)) (rows frame')
       = map (fun f => length (attrs f)) (rows frame)
    /\ Forall (fun c => String.prefix "datetime" (snd c) = false) (dtypes frame')
    /\ (forall i f' j n v,
          rows frame' !! i = Some f' ->
          dtypes frame' !! j = Some (n, "object") ->
          attrs f' !! j = Some v ->
          exists t, v = VStr t).
Proof.
  intros Hl. exists (stringified py_str frame). split; [|split; [|split; [|split]]].
  - rewrite (export_to_html_run py_str raises l path s frame Hl).
    destruct (raises InHtmlSave); cbn [snd set_heap heap];
      apply list_lookup_insert_eq; eapply lookup_lt_Some, Hl.
  - cbn [stringified dtypes]. rewrite map_map. apply map_ext. intros [n d]; cbn [fst snd].
    destruct (datetime_or_object d); reflexivity.
  - cbn [stringified rows]. rewrite map_map. apply map_ext. intros f.
    cbn [attrs]. apply length_imap.
  - cbn [stringified dtypes]. apply List.Forall_forall. intros c Hc.
    apply in_map_iff in Hc as ([n d] & <- & _). cbn [snd fst].
    destruct (datetime_or_object d) eqn:E; cbn [snd]; [reflexivity|].
    unfold datetime_or_object in E. apply orb_false_elim in E as [E _]. exact E.
  - intros i f' j n v Hf' Hd Hv. cbn [stringified rows dtypes] in Hf', Hd.
    change (map ?f (rows frame)) with (f <$> rows frame) in Hf'.
    change (map ?f (dtypes frame)) with (f <$> dtypes frame) in Hd.
    rewrite list_lookup_fmap in Hf'. rewrite list_lookup_fmap in Hd.
    destruct (rows frame !! i) as [f|]; [|discriminate].
    injection Hf' as <-. cbn [attrs] in Hv.
    rewrite list_lookup_imap in Hv.
    destruct (attrs f !! j) as [v0|]; [|discriminate]. injection Hv as <-.
    destruct (dtypes frame !! j) as [[n0 d0]|] eqn:Ed; [|discriminate].
    cbn [fmap option_fmap option_map fst snd] in Hd.
    assert (nth j (map snd (dtypes frame)) "" = d0) as Hn.
    { rewrite nth_lookup. change (map snd ?x) with (snd <$> x).
      rewrite list_lookup_fmap, Ed. reflexivity. }
    rewrite Hn. destruct (datetime_or_object d0) eqn:E.
    + eexists. reflexivity.
    + injection Hd as _ ->. discriminate E.
Qed.

(** X11. [export_to_html] fails exactly when writing the document fails;
    then the exception is the caller's, nothing was written and no
    browser was opened. *)
Theorem export_to_html_outcome (l : loc) (path : string) (s : State)
    (frame : GeoDataFrame) :
  heap s !! l = Some frame ->
  match raises InHtmlSave with
  | Some e =>
      fst (export_to_html py_str raises l path s) = Raise e
      /\ out (snd (export_to_html py_str raises l path s)) = out s
  | None =>
      fst (export_to_html py_str raises l path s) = Ok tt
      /\ out (snd (export_to_html py_str raises l path s))
         = out s ++ [HtmlSaved path (stringified py_str frame);
                     BrowserOpened ("file://" ++ path)]
  end.
Proof.
  intros Hl. rewrite (export_to_html_run py_str raises l path s frame Hl).
  destruct (raises InHtmlSave); split; reflexivity.
Qed.

End HtmlMore.


(** ** More on the SVG export *)

Section SvgMore.

Variable centroid : geometry -> coord.
Variable py_str : value -> string.
Variable raises : site -> option exn.

(** X12. A frame with no line and no polygon (points only, or no row at
    all): [export_to_svg] prints that there is nothing to draw and
    returns; no file is written, no HTML document either. *)
Theorem export_to_svg_nothing_drawable (l : loc) (path data_type : string)
    (s : State) (frame : GeoDataFrame) :
  heap s !! l = Some frame ->
  raises InTypeFilter = None ->
  empty (keep_drawable frame) = true ->
  export_to_svg centroid py_str raises l path data_type s
  = (Ok tt,
     {| heap := heap s ++ [keep_drawable frame];
        out := out s ++ [Printed "No valid line or polygon data, cannot generate SVG."];
        local_gdf := length (heap s) |}).
Proof.
  intros Hl Hf He.
  unfold export_to_svg, try_except. rewrite run_set_gdf.
  unfold export_to_svg_try; cbv zeta.
  rewrite (run_at_site_ok raises InTypeFilter) by exact Hf.
  rewrite (run_load l frame) by exact Hl.
  rewrite run_alloc, run_set_gdf; cbn [set_heap heap out local_gdf].
  rewrite (run_load _ (keep_drawable frame)) by apply lookup_fresh.
  rewrite He. reflexivity.
Qed.

(** X13. When the type filter itself fails, the fallback exports the caller's
    own frame, every row of it, and leaves it stringified. *)
Theorem export_to_svg_early_failure (l : loc) (path data_type : string)
    (s : State) (frame : GeoDataFrame) (e : exn) :
  heap s !! l = Some frame ->
  raises InTypeFilter = Some e ->
  raises InHtmlSave = None ->
  export_to_svg centroid py_str raises l path data_type s
  = (Ok tt,
     {| heap := <[l := stringified py_str frame]> (heap s);
        out := out s ++
               [Printed ("Warning: Error generating SVG file: " ++ exn_msg e);
                Printed "Will use HTML format instead.";
                HtmlSaved (str_replace ".svg" ".html" path) (stringified py_str frame);
                BrowserOpened ("file://" ++ str_replace ".svg" ".html" path)];
        local_gdf := l |}).
Proof.
  intros Hl Hf Hh.
  rewrite (export_to_svg_fails_early centroid py_str raises l path data_type s e Hf).
  rewrite (export_to_html_run py_str raises l _ _ frame) by exact Hl.
  rewrite Hh. cbn [heap out local_gdf]. rewrite <- app_assoc. reflexivity.
Qed.

Local Ltac at_a_site st :=
  let e0 := fresh "e0" in
  let H := fresh "Hsite" in
  destruct (raises st) as [e0|] eqn:H;
  [ rewrite (run_at_site_raise raises st e0) by exact H;
    intros [= <- <-]; cbn [set_heap heap out local_gdf];
    split; [|split; [reflexivity|exists st; split; [discriminate|exact H]]]
  | rewrite (run_at_site_ok raises st) by exact H ].

(** Where the [try] block can be left by an exception: at one of the
    library calls of the drawing, with [gdf] bound to an object of the
    store and nothing written. *)
Lemma export_to_svg_try_raises (l : loc) (path data_type : string) (s s' : State)
    (frame : GeoDataFrame) (e : exn) :
  heap s !! l = Some frame ->
  local_gdf s = l ->
  export_to_svg_try centroid raises l path data_type s = (Raise e, s') ->
  (exists fr, heap s' !! local_gdf s' = Some fr)
  /\ out s' = out s
  /\ exists st, st <> InHtmlSave /\ raises st = Some e.
Proof.
  intros Hl Hloc. unfold export_to_svg_try; cbv zeta.
  at_a_site InTypeFilter; [rewrite Hloc; eauto|].
  rewrite (run_load l frame) by exact Hl.
  rewrite run_alloc, run_set_gdf; cbn [set_heap heap out local_gdf].
  rewrite (run_load _ (keep_drawable frame)) by apply lookup_fresh.
  destruct (empty (keep_drawable frame)); [discriminate|].
  at_a_site InBounds; [rewrite lookup_fresh; eauto|].
  destruct (degenerate _); [discriminate|].
  destruct (is_pedestrian data_type).
  - rewrite bind_assoc.
    at_a_site InSpacing; [rewrite lookup_fresh; eauto|].
    rewrite bind_assoc, run_alloc. cbn [set_heap heap out local_gdf].
    rewrite bind_assoc, run_set_gdf. cbn [heap out local_gdf].
    rewrite bind_assoc, run_store. cbn [set_heap heap out local_gdf].
    rewrite insert_fresh.
    rewrite bind_assoc.
    at_a_site InRescale; [rewrite lookup_fresh; eauto|].
    rewrite bind_assoc.
    rewrite (run_load (length (heap s ++ [keep_drawable frame]))
               (set_geometry (keep_drawable frame)
                  (spread_blocks centroid move_ratio (shapes (keep_drawable frame)))))
      by apply lookup_fresh.
    rewrite run_ret.
    at_a_site InDrawing; [rewrite lookup_fresh; eauto|].
    rewrite run_get_gdf. cbn [local_gdf].
    rewrite (run_load (length (heap s ++ [keep_drawable frame]))
               (set_geometry (keep_drawable frame)
                  (spread_blocks centroid move_ratio (shapes (keep_drawable frame)))))
      by apply lookup_fresh.
    at_a_site InSvgSave; [rewrite lookup_fresh; eauto|].
    discriminate.
  - rewrite run_ret.
    at_a_site InDrawing; [rewrite lookup_fresh; eauto|].
    rewrite run_get_gdf. cbn [local_gdf].
    rewrite (run_load _ (keep_drawable frame)) by apply lookup_fresh.
    at_a_site InSvgSave; [rewrite lookup_fresh; eauto|].
    discriminate.
Qed.

(** X14. [export_to_svg] swallows every failure of the drawing: it raises
    only when a step of the drawing failed and the HTML document written
    instead could not be saved either, and what it raises then is the
    exception of that save. *)
Theorem export_to_svg_raises_only_at_html_save (l : loc) (path data_type : string)
    (s : State) (frame : GeoDataFrame) :
  heap s !! l = Some frame ->
  (raises InHtmlSave = None ->
   fst (export_to_svg centroid py_str raises l path data_type s) = Ok tt)
  /\ (forall e,
        fst (export_to_svg centroid py_str raises l path data_type s) = Raise e ->
        raises InHtmlSave = Some e
        /\ (exists st e', st <> InHtmlSave /\ raises st = Some e')
        /\ html_exports
             (out (snd (export_to_svg centroid py_str raises l path data_type s)))
           = html_exports (out s)
        /\ svg_exports
             (out (snd (export_to_svg centroid py_str raises l path data_type s)))
           = svg_exports (out s)).
Proof.
  intros Hl.
  unfold export_to_svg, try_except. rewrite run_set_gdf.
  destruct (export_to_svg_try centroid raises l path data_type
              {| heap := heap s; out := out s; local_gdf := l |})
    as [[[]|e0] s'] eqn:Htry.
  - split; [reflexivity|]. intros e [=].
  - destruct (export_to_svg_try_raises l path data_type
                {| heap := heap s; out := out s; local_gdf := l |} s' frame e0
                Hl eq_refl Htry)
      as ((fr & Hfr) & Hout & st & Hst & Hraise).
    cbn [out] in Hout.
    unfold export_to_svg_except, print. rewrite !run_emit, run_get_gdf.
    cbn [heap out local_gdf].
    rewrite (export_to_html_run py_str raises (local_gdf s') _ _ fr) by exact Hfr.
    destruct (raises InHtmlSave) as [e1|] eqn:Hh.
    + split; [discriminate|]. intros e [= <-]. cbn [snd set_heap out].
      split; [reflexivity|]. split; [eauto|]. rewrite Hout.
      unfold html_exports, svg_exports. rewrite !flat_map_app. cbn [flat_map app].
      rewrite !app_nil_r. split; reflexivity.
    + split; [reflexivity|]. intros e [=].
Qed.

(** X15. Line data: the drawable rows are drawn where they are, one unit
    wide, under the placement of their own bounding box; when the drawing
    cannot be saved, the HTML document written instead holds the drawable
    rows only.  Either way the caller's frame is as it was. *)
Theorem export_to_svg_lines (l : loc) (path data_type : string) (s : State)
    (frame : GeoDataFrame) :
  heap s !! l = Some frame ->
  (forall st, st <> InSvgSave -> raises st = None) ->
  is_pedestrian data_type = false ->
  empty (keep_drawable frame) = false ->
  degenerate (total_bounds (shapes (keep_drawable frame))) = false ->
  export_to_svg centroid py_str raises l path data_type s
  = match raises InSvgSave with
    | None =>
        (Ok tt,
         {| heap := heap s ++ [keep_drawable frame];
            out := out s ++
                   [SvgSaved path
                      (mkDrawing (svg_width, svg_height)
                         (flat_map
                            (draw_geometry
                               (placement (total_bounds (shapes (keep_drawable frame))))
                               1)
                            (shapes (keep_drawable frame))));
                    Printed ("SVG file generated: " ++ path)];
            local_gdf := length (heap s) |})
    | Some e =>
        (Ok tt,
         {| heap := heap s ++ [stringified py_str (keep_drawable frame)];
            out := out s ++
                   [Printed ("Warning: Error generating SVG file: " ++ exn_msg e);
                    Printed "Will use HTML format instead.";
                    HtmlSaved (str_replace ".svg" ".html" path)
                      (stringified py_str (keep_drawable frame));
                    BrowserOpened ("file://" ++ str_replace ".svg" ".html" path)];
            local_gdf := length (heap s) |})
    end.
Proof.
  intros Hl Hno Hped Hne Hdeg.
  unfold export_to_svg, try_except. rewrite run_set_gdf.
  rewrite (try_traffic centroid raises l path data_type
             {| heap := heap s; out := out s; local_gdf := l |} frame Hl Hno Hped
             Hne Hdeg).
  destruct (raises InSvgSave) as [e|]; [|reflexivity].
  cbn [heap out local_gdf].
  unfold export_to_svg_except, print. rewrite !run_emit, run_get_gdf.
  cbn [heap out local_gdf].
  rewrite (export_to_html_run py_str raises (length (heap s)) _ _ (keep_drawable frame))
    by apply lookup_fresh.
  rewrite (Hno InHtmlSave) by discriminate. cbn [heap out local_gdf].
  rewrite insert_fresh, <- !app_assoc. reflexivity.
Qed.

End SvgMore.


(** ** What the exports leave alone *)

(** The rules of the triples. *)

Section Triples.

Context {A : Type}.

Lemma triple_ret (P : State -> Prop) (a : A) (Q : A -> State -> Prop)
    (R : State -> Prop) :
  (forall s, P s -> Q a s) -> triple P (ret a) Q R.
Proof. intros H s Hs. apply H, Hs. Qed.

Lemma triple_weaken (P P' : State -> Prop) (m : M A)
    (Q Q' : A -> State -> Prop) (R R' : State -> Prop) :
  triple P' m Q' R' ->
  (forall s, P s -> P' s) ->
  (forall a s, Q' a s -> Q a s) ->
  (forall s, R' s -> R s) ->
  triple P m Q R.
Proof.
  intros H HP HQ HR s Hs. specialize (H s (HP s Hs)).
  destruct (m s) as [[a|e] s']; auto.
Qed.

Lemma triple_raises (P : State -> Prop) (m : M A) (Q : A -> State -> Prop)
    (R R' : State -> Prop) :
  triple P m Q R' -> (forall s, R' s -> R s) -> triple P m Q R.
Proof.
  intros H HR s Hs. specialize (H s Hs).
  destruct (m s) as [[a|e] s']; auto.
Qed.

Lemma triple_pure (phi : Prop) (P : State -> Prop) (m : M A)
    (Q : A -> State -> Prop) (R : State -> Prop) :
  (phi -> triple P m Q R) -> triple (fun s => P s /\ phi) m Q R.
Proof. intros H s [Hs Hphi]. apply (H Hphi s Hs). Qed.

Lemma triple_bind {B : Type} (P : State -> Prop) (m : M B) (k : B -> M A)
    (Q' : B -> State -> Prop) (Q : A -> State -> Prop) (R : State -> Prop) :
  triple P m Q' R ->
  (forall b, triple (Q' b) (k b) Q R) ->
  triple P (bind m k) Q R.
Proof.
  intros Hm Hk s Hs. unfold bind. specialize (Hm s Hs).
  destruct (m s) as [[b|e] s']; [apply (Hk b s' Hm)|exact Hm].
Qed.

Lemma triple_try (P : State -> Prop) (body : M A) (handler : exn -> M A)
    (Q : A -> State -> Prop) (R' R : State -> Prop) :
  triple P body Q R' ->
  (forall e, triple R' (handler e) Q R) ->
  triple P (try_except body handler) Q R.
Proof.
  intros Hb Hh s Hs. unfold try_except. specialize (Hb s Hs).
  destruct (body s) as [[a|e] s']; [exact Hb|apply (Hh e s' Hb)].
Qed.

Lemma triple_if (b : bool) (P : State -> Prop) (m1 m2 : M A)
    (Q : A -> State -> Prop) (R : State -> Prop) :
  triple P m1 Q R -> triple P m2 Q R -> triple P (if b then m1 else m2) Q R.
Proof. destruct b; auto. Qed.

End Triples.

(** The commands of the export functions write only where [ok] allows. *)
Section Confinement.

Variable py_str : value -> string.
Variable raises : site -> option exn.
Variable ok : loc -> Prop.
Variable s0 : State.
Hypothesis fresh_ok : forall x, (length (heap s0) <= x)%nat -> ok x.

Abbreviation I := (confined ok s0).

Lemma confined_at_site (aim : bool) (st : site) :
  triple (I aim) (at_site raises st) (fun _ => I aim) (I aim).
Proof.
  intros s Hs. unfold at_site. destruct (raises st); exact Hs.
Qed.

Lemma confined_load (aim : bool) (x : loc) :
  triple (I aim) (load x) (fun _ => I aim) (I aim).
Proof. intros s Hs. unfold load. destruct (heap s !! x); exact Hs. Qed.

Lemma confined_emit (aim : bool) (e : event) (R : State -> Prop) :
  triple (I aim) (emit e) (fun _ => I aim) R.
Proof. intros s Hs. exact Hs. Qed.

Lemma confined_get_gdf (R : State -> Prop) :
  triple (I true) get_gdf (fun x s => I true s /\ ok x) R.
Proof. intros s Hs. split; [exact Hs|]. apply Hs. reflexivity. Qed.

Lemma confined_set_gdf (aim : bool) (x : loc) (R : State -> Prop) :
  ok x -> triple (I aim) (set_gdf x) (fun _ => I true) R.
Proof. intros Hx s [Hu _]. split; [exact Hu|]. intros _. exact Hx. Qed.

Lemma confined_alloc (aim : bool) (gdf : GeoDataFrame) (R : State -> Prop) :
  triple (I aim) (alloc gdf) (fun x s => I aim s /\ ok x) R.
Proof.
  intros s [[Hlen Hsame] Haim]. unfold alloc, confined, untouched.
  cbn [set_heap heap local_gdf]. split; [split; [split|]|].
  - rewrite length_app. lia.
  - intros l' Hl' Hno. rewrite lookup_app_l by lia. apply Hsame; assumption.
  - exact Haim.
  - apply fresh_ok, Hlen.
Qed.

Lemma confined_store (aim : bool) (x : loc) (gdf : GeoDataFrame)
    (R : State -> Prop) :
  ok x -> triple (I aim) (store x gdf) (fun _ => I aim) R.
Proof.
  intros Hx s [[Hlen Hsame] Haim]. unfold store, confined, untouched.
  cbn [set_heap heap local_gdf]. split; [split|exact Haim].
  - rewrite length_insert. exact Hlen.
  - intros l' Hl' Hno. rewrite list_lookup_insert_ne
      by (intros E; apply Hno; rewrite <- E; exact Hx).
    apply Hsame; assumption.
Qed.

Lemma confined_forget (aim : bool) (s : State) : I true s -> I aim s.
Proof. intros [Hu Ha]. split; [exact Hu|]. intros _. apply Ha. reflexivity. Qed.

(** One more command of a sequence, under the invariant. *)
Local Ltac next rule :=
  simple eapply triple_bind; [simple apply rule|intros ?; cbv beta].

Lemma confined_for_each {X : Type} (aim : bool) (l : list X) (body : X -> M unit) :
  (forall x, triple (I aim) (body x) (fun _ => I aim) (I aim)) ->
  triple (I aim) (for_each l body) (fun _ => I aim) (I aim).
Proof.
  intros Hb. induction l as [|x l IH]; cbn [for_each].
  - simple apply triple_ret. auto.
  - next Hb. exact IH.
Qed.

Lemma confined_export_to_html (aim : bool) (x : loc) (path : string) :
  ok x ->
  triple (I aim) (export_to_html py_str raises x path) (fun _ => I aim) (I aim).
Proof.
  intros Hx. unfold export_to_html.
  next confined_load.
  simple eapply triple_bind.
  { simple apply confined_for_each. intros col.
    next confined_load.
    simple apply triple_if; [simple apply confined_store; exact Hx
                            |simple apply triple_ret; auto]. }
  intros ?; cbv beta.
  next confined_load. next confined_at_site. next confined_emit.
  simple apply confined_emit.
Qed.

Variable centroid : geometry -> coord.

Lemma confined_except (path : string) (e : exn) :
  triple (I true) (export_to_svg_except py_str raises path e)
    (fun _ => I true) (I true).
Proof.
  unfold export_to_svg_except, print.
  next confined_emit. next confined_emit.
  simple eapply triple_bind; [simple apply confined_get_gdf|].
  intros cur; cbv beta.
  simple apply triple_pure. intros Hcur.
  simple apply confined_export_to_html. exact Hcur.
Qed.

(** The [try] block: when it raises, either [gdf] has been rebound, or
    the type filter itself failed, or the argument referred to nothing. *)
Lemma confined_try (aim : bool) (gdf : loc) (path data_type : string) :
  triple (I aim) (export_to_svg_try centroid raises gdf path data_type)
    (fun _ => I true)
    (fun s => I true s
              \/ (I aim s /\ (raises InTypeFilter <> None \/ heap s !! gdf = None))).
Proof.
  unfold export_to_svg_try, print. cbv zeta.
  simple eapply triple_bind with (Q' := fun _ => I aim).
  { intros s Hs. unfold at_site.
    destruct (raises InTypeFilter) eqn:E; [|exact Hs].
    right. split; [exact Hs|]. left. discriminate. }
  intros ?; cbv beta.
  simple eapply triple_bind with (Q' := fun _ => I aim).
  { intros s Hs. unfold load.
    destruct (heap s !! gdf) eqn:E; [exact Hs|].
    right. split; [exact Hs|]. right. exact E. }
  intros frame; cbv beta.
  simple eapply triple_bind; [simple apply (confined_alloc aim)|].
  intros kept; cbv beta. simple apply triple_pure. intros Hkept.
  simple eapply triple_bind; [simple apply (confined_set_gdf aim kept); exact Hkept|].
  intros ?; cbv beta.
  simple eapply triple_raises with (R' := I true); [|intros s H; left; exact H].
  next confined_load.
  simple apply triple_if; [simple apply confined_emit|].
  next confined_at_site.
  simple apply triple_if; [simple apply confined_emit|].
  simple eapply triple_bind with (Q' := fun _ => I true).
  { simple apply triple_if; [|simple apply triple_ret; auto].
    next confined_at_site.
    simple eapply triple_bind; [simple apply (confined_alloc true)|].
    intros copy; cbv beta. simple apply triple_pure. intros Hcopy.
    simple eapply triple_bind;
      [simple apply (confined_set_gdf true copy); exact Hcopy|].
    intros ?; cbv beta.
    simple eapply triple_bind;
      [simple apply (confined_store true copy); exact Hcopy|].
    intros ?; cbv beta.
    next confined_at_site.
    next confined_load.
    simple apply triple_ret. auto. }
  intros bounds; cbv beta.
  next confined_at_site.
  simple eapply triple_bind; [simple apply confined_get_gdf|].
  intros cur; cbv beta. simple apply triple_pure. intros Hcur.
  next confined_load.
  next confined_at_site.
  next confined_emit.
  simple apply confined_emit.
Qed.

Lemma confined_export_to_svg (aim : bool) (gdf : loc) (path data_type : string) :
  ok gdf ->
  triple (I aim) (export_to_svg centroid py_str raises gdf path data_type)
    (fun _ => I true) (I true).
Proof.
  intros Hgdf. unfold export_to_svg.
  simple eapply triple_bind; [simple apply (confined_set_gdf aim gdf); exact Hgdf|].
  intros ?; cbv beta.
  simple eapply triple_try; [|simple apply confined_except].
  simple eapply triple_raises; [simple apply (confined_try true)|].
  intros s [H|[H _]]; exact H.
Qed.

End Confinement.

Section FrameTheorems.

Variable centroid : geometry -> coord.
Variable py_str : value -> string.
Variable raises : site -> option exn.

Lemma untouched_refl (ok : loc -> Prop) (s : State) : untouched ok s s.
Proof. split; [lia|]. auto. Qed.

Lemma triple_run {A : Type} (P : State -> Prop) (m : M A)
    (Q : A -> State -> Prop) (R : State -> Prop) (s : State) :
  triple P m Q R -> P s ->
  (forall a s', Q a s' -> R s') ->
  R (snd (m s)).
Proof.
  intros H Hs HQ. specialize (H s Hs).
  destruct (m s) as [[a|e] s']; cbn; eauto.
Qed.

(** X16. Whatever fails, [export_to_svg] never writes to a frame of the
    store other than the one it was given: the store only grows, and
    every object that was there before, the argument apart, is as it was. *)
Theorem export_to_svg_frame (l : loc) (path data_type : string) (s : State) :
  (length (heap s)
   <= length (heap (snd (export_to_svg centroid py_str raises l path data_type s))))%nat
  /\ forall l', (l' < length (heap s))%nat -> l' <> l ->
       heap (snd (export_to_svg centroid py_str raises l path data_type s)) !! l'
       = heap s !! l'.
Proof.
  set (ok := fun x : nat => x = l \/ (length (heap s) <= x)%nat).
  assert (confined ok s true
            (snd (export_to_svg centroid py_str raises l path data_type s)))
    as [[Hlen Hsame] _].
  { apply (triple_run (confined ok s false) _ (fun _ => confined ok s true)).
    - simple apply confined_export_to_svg; unfold ok; auto.
    - split; [apply untouched_refl|discriminate].
    - auto. }
  split; [exact Hlen|]. intros l' Hl' Hne. apply Hsame; [exact Hl'|].
  unfold ok. intros [E|E]; [contradiction|lia].
Qed.

(** X17. When the type filter of line 154 does not fail, [export_to_svg]
    leaves the caller's own frame as it was as well, whatever fails
    later: it works on the filtered frame and on copies of it. *)
Theorem export_to_svg_spares_caller (l : loc) (path data_type : string)
    (s : State) (frame : GeoDataFrame) :
  heap s !! l = Some frame ->
  raises InTypeFilter = None ->
  forall l', (l' < length (heap s))%nat ->
    heap (snd (export_to_svg centroid py_str raises l path data_type s)) !! l'
    = heap s !! l'.
Proof.
  intros Hl Hquiet.
  pose proof (lookup_lt_Some _ _ _ Hl) as Hlt.
  set (ok := fun x : nat => (length (heap s) <= x)%nat).
  assert (confined ok s true
            (snd (export_to_svg centroid py_str raises l path data_type s)))
    as [[Hlen Hsame] _].
  { apply (triple_run (confined ok s false) _ (fun _ => confined ok s true));
      [|split; [apply untouched_refl|discriminate]|auto].
    unfold export_to_svg.
    simple eapply triple_bind with (Q' := fun _ => confined ok s false).
    { intros s1 [Hu _]. split; [exact Hu|discriminate]. }
    intros ?; cbv beta.
    simple eapply triple_try; [|simple apply confined_except].
    simple eapply triple_raises;
      [simple apply (confined_try raises ok s (fun x H => H) centroid false)|].
    cbv beta.
    intros s1 [H|[[[Hlen Hsame] _] [H|H]]]; [exact H|contradiction|].
    rewrite Hsame in H; [congruence|exact Hlt|unfold ok; lia]. }
  intros l' Hl'. apply Hsame; [exact Hl'|]. unfold ok. lia.
Qed.

End FrameTheorems.


(** ** A turn of [main] *)

Section MainFacts.

Context {region : Type} (buffer : coord -> Q -> region)
        (intersects : geometry -> region -> bool).
Variable centroid : geometry -> coord.
Variable py_str : value -> string.
Variable raises : site -> option exn.
Variable isdir : string -> bool.

Lemma confined_export_outputs (ok : loc -> Prop) (s0 : State)
    (data : loc) (address : string) (r : Q)
    (data_type output_format html_path svg_path : string) :
  (forall x, (length (heap s0) <= x)%nat -> ok x) ->
  ok data ->
  triple (confined ok s0 false)
    (export_outputs centroid py_str raises data address r data_type
       output_format html_path svg_path)
    (fun _ => confined ok s0 false) (confined ok s0 false).
Proof.
  intros Hfresh Hdata. unfold export_outputs, print.
  simple eapply triple_bind; [simple apply confined_load|]. intros frame; cbv beta.
  simple apply triple_if; [simple apply confined_emit|].
  simple eapply triple_bind; [simple apply confined_emit|]. intros ?; cbv beta.
  simple eapply triple_bind with (Q' := fun _ => confined ok s0 false).
  { simple apply triple_if; [|simple apply triple_ret; auto].
    simple eapply triple_bind; [simple apply confined_emit|]. intros ?; cbv beta.
    simple apply confined_export_to_html. exact Hdata. }
  intros ?; cbv beta.
  simple apply triple_if; [|simple apply triple_ret; auto].
  simple eapply triple_bind; [simple apply confined_emit|]. intros ?; cbv beta.
  simple eapply triple_weaken;
    [simple apply (confined_export_to_svg py_str raises ok s0 Hfresh centroid false);
     exact Hdata
    |auto|intros ? s; apply confined_forget|apply confined_forget].
Qed.

(** X18. A turn of the loop of [main] never lets an exception escape:
    whatever [extract_street_data] or an export raises is caught by line
    323 and printed.  The turn writes only to the frame it extracted: the
    store only grows and every object that was there before is as it was. *)
Theorem main_turn_contained (w : World) (address : string) (r : Q)
    (data_type output_format : string) (export_path : option string) (s : State) :
  fst (main_turn region buffer intersects centroid py_str raises isdir w address r
         data_type output_format export_path s) = Ok tt
  /\ (length (heap s)
      <= length (heap (snd (main_turn region buffer intersects centroid py_str
                              raises isdir w address r data_type output_format
                              export_path s))))%nat
  /\ forall l, (l < length (heap s))%nat ->
       heap (snd (main_turn region buffer intersects centroid py_str raises isdir
                    w address r data_type output_format export_path s)) !! l
       = heap s !! l.
Proof.
  split.
  - unfold main_turn, try_except.
    destruct (main_try _ _ _ _ _ _ _ _ _ _ _ _ _ s) as [[[]|e] s']; reflexivity.
  - set (ok := fun x : nat => (length (heap s) <= x)%nat).
    assert (confined ok s false
              (snd (main_turn region buffer intersects centroid py_str raises isdir
                      w address r data_type output_format export_path s)))
      as [[Hlen Hsame] _].
    { apply (triple_run (confined ok s false) _ (fun _ => confined ok s false));
        [|split; [apply untouched_refl|discriminate]|auto].
      unfold main_turn.
      simple eapply triple_try with (R' := confined ok s false);
        [|intros e; unfold print; simple apply confined_emit].
      unfold main_try.
      simple eapply triple_bind with (Q' := fun _ => confined ok s false).
      { intros s1 Hs1. unfold lift. destruct (extract_street_data _ _ _ _ _ _);
          exact Hs1. }
      intros gdf; cbv beta.
      simple eapply triple_bind; [simple apply confined_alloc; unfold ok; auto|].
      intros data; cbv beta. simple apply triple_pure. intros Hdata.
      simple apply confined_export_outputs; unfold ok; auto. }
    split; [exact Hlen|]. intros l Hl. apply Hsame; [exact Hl|]. unfold ok. lia.
Qed.

(** X19. When the extraction raises, the turn prints the message of the
    exception after Error: and does nothing else; when it finds no
    feature, the turn prints that no data was found and writes no file,
    whatever output format was asked for. *)
Theorem main_turn_writes_nothing (w : World) (address : string) (r : Q)
    (data_type output_format : string) (export_path : option string) (s : State) :
  (forall e,
     extract_street_data buffer intersects w address r data_type = Raise e ->
     main_turn region buffer intersects centroid py_str raises isdir w address r
       data_type output_format export_path s
     = (Ok tt,
        {| heap := heap s; out := out s ++ [Printed ("Error: " ++ exn_msg e)];
           local_gdf := local_gdf s |}))
  /\ (forall gdf,
        extract_street_data buffer intersects w address r data_type = Ok gdf ->
        rows gdf = [] ->
        main_turn region buffer intersects centroid py_str raises isdir w address r
          data_type output_format export_path s
        = (Ok tt,
           {| heap := heap s ++ [gdf];
              out := out s ++
                     [Printed ("No " ++ data_type ++ " data found within "
                               ++ py_str (VFloat r) ++ " miles of " ++ address)];
              local_gdf := local_gdf s |})).
Proof.
  split.
  - intros e He. unfold main_turn, try_except, main_try, bind, lift.
    rewrite He. reflexivity.
  - intros gdf Hg Hrows. unfold main_turn, try_except, main_try.
    unfold bind at 1, lift. rewrite Hg.
    rewrite run_alloc. unfold export_outputs.
    rewrite (run_load _ gdf) by apply lookup_fresh.
    unfold empty. rewrite Hrows. reflexivity.
Qed.

End MainFacts.


(** ** The names of the output files *)

Local Open Scope string_scope.

Lemma append_assoc (a b c : string) : (a ++ b) ++ c = a ++ (b ++ c).
Proof. induction a as [|x a IH]; simpl; [|rewrite IH]; reflexivity. Qed.

Lemma append_length (a b : string) :
  String.length (a ++ b) = (String.length a + String.length b)%nat.
Proof. induction a as [|x a IH]; simpl; [|rewrite IH]; reflexivity. Qed.

Lemma endswith_refl (s : string) : endswith s s = true.
Proof. destruct s; cbn [endswith]; rewrite String.eqb_refl; reflexivity. Qed.

Lemma endswith_append (p t : string) : endswith (p ++ t) t = true.
Proof.
  induction p as [|c p IH]; cbn [append endswith].
  - apply endswith_refl.
  - rewrite IH. apply orb_true_r.
Qed.

Lemma endswith_split (s t : string) :
  endswith s t = true -> exists p, s = p ++ t.
Proof.
  induction s as [|c s IH]; cbn [endswith]; intros H.
  - rewrite orb_false_r in H. apply String.eqb_eq in H. exists "". exact H.
  - apply orb_true_iff in H as [H|H].
    + apply String.eqb_eq in H. exists "". exact H.
    + destruct (IH H) as [p ->]. exists (String c p). reflexivity.
Qed.

(** The last character of a string. *)
Lemma endswith_last (s t : string) (c d : ascii) :
  endswith s (t ++ String c "") = true ->
  endswith s (String d "") = true ->
  c = d.
Proof.
  intros H1 H2.
  apply endswith_split in H1 as [p ->].
  apply endswith_split in H2 as [q E].
  rewrite <- append_assoc in E.
  revert q E. generalize (p ++ t). intros u.
  induction u as [|x u IH]; intros [|y q] E; simpl in E.
  - congruence.
  - destruct q; discriminate.
  - destruct u; discriminate.
  - injection E as _ E. apply (IH q E).
Qed.

Lemma endswith_trans (s t u : string) :
  endswith s (t ++ u) = true -> endswith s u = true.
Proof.
  intros H. apply endswith_split in H as [p ->].
  rewrite <- append_assoc. apply endswith_append.
Qed.

Lemma html_is_not_svg (s : string) :
  endswith s ".html" = true -> endswith s ".svg" = true -> False.
Proof.
  intros H1 H2.
  assert ("l"%char = "g"%char) as E; [|discriminate E].
  apply (endswith_last s ".htm" "l" "g"); [exact H1|].
  apply (endswith_trans s ".sv" "g"). exact H2.
Qed.

Lemma map_html_ends (a : string) : endswith (a ++ "_map.html") ".html" = true.
Proof.
  change (a ++ "_map.html") with (a ++ ("_map" ++ ".html")).
  rewrite <- append_assoc. apply endswith_append.
Qed.

Lemma map_svg_ends (a : string) : endswith (a ++ "_map.svg") ".svg" = true.
Proof.
  change (a ++ "_map.svg") with (a ++ ("_map" ++ ".svg")).
  rewrite <- append_assoc. apply endswith_append.
Qed.

Section Paths.

Variable isdir : string -> bool.

Lemma path_join_ends (a b t : string) :
  endswith b t = true -> endswith (path_join a b) t = true.
Proof.
  intros H. apply endswith_split in H as [p ->]. unfold path_join.
  destruct (String.prefix "/" (p ++ t)); [apply endswith_append|].
  destruct (_ || _); rewrite <- ?append_assoc; apply endswith_append.
Qed.

(** X20. Whatever export path is given (none, a directory, a base name, a
    name ending in .html or in .svg), lines 303-308 give an HTML path
    that ends in .html and an SVG path that ends in .svg; the two are
    never the same file. *)
Theorem output_paths_distinct (export_path : option string) (data_type : string) :
  endswith (fst (output_paths isdir export_path data_type)) ".html" = true
  /\ endswith (snd (output_paths isdir export_path data_type)) ".svg" = true
  /\ fst (output_paths isdir export_path data_type)
     <> snd (output_paths isdir export_path data_type).
Proof.
  assert (endswith (fst (output_paths isdir export_path data_type)) ".html" = true)
    as Hh.
  { unfold output_paths.
    destruct (given export_path && isdir (text export_path)); cbn [fst].
    - apply path_join_ends, map_html_ends.
    - destruct (given export_path); cbn [andb]; [|apply map_html_ends].
      destruct (endswith (text export_path) ".html") eqn:E;
        [exact E|apply map_html_ends]. }
  assert (endswith (snd (output_paths isdir export_path data_type)) ".svg" = true)
    as Hs.
  { unfold output_paths.
    destruct (given export_path && isdir (text export_path)); cbn [snd].
    - apply path_join_ends, map_svg_ends.
    - destruct (given export_path); cbn [andb]; [|apply map_svg_ends].
      destruct (endswith (text export_path) ".svg") eqn:E;
        [exact E|apply map_svg_ends]. }
  split; [exact Hh|]. split; [exact Hs|].
  intros E. rewrite E in Hh. exact (html_is_not_svg _ Hh Hs).
Qed.

End Paths.

Lemma replace_absent (old new s : string) :
  contains old s = false -> replace_from old new 0 s = s.
Proof.
  induction s as [|c s IH]; cbn [contains replace_from]; intros H; [reflexivity|].
  apply orb_false_elim in H as [Hp Hc].
  rewrite Hp, (IH Hc). reflexivity.
Qed.

Lemma prefix_append (old a b : string) :
  (String.length old <= String.length a)%nat ->
  String.prefix old (a ++ b) = String.prefix old a.
Proof.
  revert a. induction old as [|c old IH]; intros a Hlen.
  - destruct a; cbn [append]; [destruct b|]; reflexivity.
  - destruct a as [|d a]; cbn [String.length] in Hlen; [lia|].
    cbn [append String.prefix]. destruct (ascii_dec c d); [|reflexivity].
    apply IH. lia.
Qed.

Lemma replace_svg_suffix (q : string) :
  contains ".svg" (q ++ ".sv") = false ->
  str_replace ".svg" ".html" (q ++ ".svg") = q ++ ".html".
Proof.
  unfold str_replace. induction q as [|c q IH]; intros H; [reflexivity|].
  cbn [append contains] in H. apply orb_false_elim in H as [Hp Hc].
  cbn [append replace_from].
  assert (String.prefix ".svg" (String c (q ++ ".svg")) = false) as Hp'.
  { change (String c (q ++ ".svg")) with (String c (q ++ (".sv" ++ "g"))).
    rewrite <- append_assoc.
    change (String c ((q ++ ".sv") ++ "g")) with (String c (q ++ ".sv") ++ "g").
    rewrite prefix_append; [exact Hp|].
    cbn [String.length]. rewrite append_length. cbn [String.length]. lia. }
  rewrite Hp', (IH Hc). reflexivity.
Qed.

(** X21. The path of the document written instead of a drawing (line 236):
    a drawing path in which .svg does not occur is used as it is, so
    that the HTML document takes the very name of the drawing; a path
    that ends in .svg and holds no other .svg has its extension
    exchanged for .html. *)
Theorem fallback_path_by_extension (path : string) :
  (contains ".svg" path = false -> str_replace ".svg" ".html" path = path)
  /\ (forall stem, path = stem ++ ".svg" -> contains ".svg" (stem ++ ".sv") = false ->
        str_replace ".svg" ".html" path = stem ++ ".html").
Proof.
  split.
  - apply replace_absent.
  - intros stem -> H. apply replace_svg_suffix, H.
Qed.

Section Collision.

Variable isdir : string -> bool.

(** X22. When the export path is a base name (not a directory, ending
    neither in .html nor in .svg) in which .svg does not occur, or is
    absent, the document written instead of a drawing goes to the path of
    the HTML map of the same turn: with both outputs asked for, it
    overwrites the map written just before. *)
Theorem fallback_reuses_html_path (export_path : option string) (data_type : string) :
  given export_path && isdir (text export_path) = false ->
  given export_path
    && (endswith (text export_path) ".html" || endswith (text export_path) ".svg")
    = false ->
  contains ".svg"
    ((if given export_path then text export_path else data_type) ++ "_map.sv")
    = false ->
  str_replace ".svg" ".html" (snd (output_paths isdir export_path data_type))
  = fst (output_paths isdir export_path data_type).
Proof.
  intros Hdir Hext Hno. unfold output_paths. rewrite Hdir. cbn [fst snd].
  assert (forall stem, contains ".svg" (stem ++ "_map.sv") = false ->
            str_replace ".svg" ".html" (stem ++ "_map.svg") = stem ++ "_map.html")
    as Hstem.
  { intros stem H.
    change (stem ++ "_map.svg") with (stem ++ ("_map" ++ ".svg")).
    change (stem ++ "_map.html") with (stem ++ ("_map" ++ ".html")).
    rewrite <- !append_assoc. apply replace_svg_suffix.
    rewrite append_assoc. exact H. }
  destruct (given export_path); cbn [andb] in *.
  - apply orb_false_elim in Hext as [-> ->]. apply Hstem, Hno.
  - apply Hstem, Hno.
Qed.

End Collision.

Lemma fallback_reuses_html_path_witness :
  str_replace ".svg" ".html"
    (snd (output_paths (fun _ => false) (Some "out/soho") "traffic"))
  = fst (output_paths (fun _ => false) (Some "out/soho") "traffic").
Proof.
  apply (fallback_reuses_html_path (fun _ => false) (Some "out/soho") "traffic");
    reflexivity.
Defined.


(** ** The dialogue *)

Section PromptFacts.

Context {A : Type}.
Variable prompt : string.
Variable check : string -> verdict A.

Lemma prompt_lines_ok (lines : list string) (seen : list event) (a : A) (t' : Tty) :
  prompt_lines prompt check lines seen = (Ok a, t') ->
  exists bad l, lines = (bad ++ l :: stdin t')%list
                /\ Forall (rejected check) bad /\ check l = Accept a.
Proof.
  revert seen. induction lines as [|l rest IH]; intros seen H; cbn [prompt_lines] in H.
  - discriminate.
  - destruct (check l) as [a'|c] eqn:Hc.
    + injection H as <- <-. exists [], l. cbn. auto.
    + apply IH in H as (bad & l' & -> & Hbad & Hl').
      exists (l :: bad), l'. repeat split; [|exact Hl'].
      constructor; [exists c; exact Hc|exact Hbad].
Qed.

Lemma prompt_lines_raise (lines : list string) (seen : list event) (e : exn) (t' : Tty) :
  prompt_lines prompt check lines seen = (Raise e, t') ->
  e = EOFError /\ stdin t' = [] /\ Forall (rejected check) lines.
Proof.
  revert seen. induction lines as [|l rest IH]; intros seen H; cbn [prompt_lines] in H.
  - injection H as <- <-. auto.
  - destruct (check l) as [a'|c] eqn:Hc; [discriminate|].
    apply IH in H as (-> & Ht & Hall). repeat split; [exact Ht|].
    constructor; [exists c; exact Hc|exact Hall].
Qed.

Lemma prompt_lines_app (bad rest : list string) (seen : list event) :
  Forall (rejected check) bad ->
  prompt_lines prompt check (bad ++ rest) seen
  = prompt_lines prompt check rest (seen ++ concat (map (turn_shown prompt check) bad)).
Proof.
  intros H. revert seen. induction H as [|l bad [c Hc] _ IH]; intros seen.
  - cbn. rewrite app_nil_r. reflexivity.
  - assert (turn_shown prompt check l = [Printed prompt; Printed c]) as Hl
      by (unfold turn_shown; rewrite Hc; reflexivity).
    cbn [app prompt_lines map concat]. rewrite Hc, Hl, IH, <- app_assoc.
    reflexivity.
Qed.

(** X23. The loop asks until a line is accepted: the rejected lines before
    it cost a prompt and a complaint each, the lines after it stay
    unread; when every line is rejected the loop ends in EOFError,
    having asked once more than there were lines. *)
Theorem prompt_loop_retries (bad rest : list string) (seen : list event) :
  Forall (rejected check) bad ->
  (forall l a, check l = Accept a ->
     prompt_loop prompt check {| stdin := bad ++ l :: rest; shown := seen |}
     = (Ok a, {| stdin := rest;
                 shown := seen ++ concat (map (turn_shown prompt check) bad)
                               ++ [Printed prompt] |}))
  /\ prompt_loop prompt check {| stdin := bad; shown := seen |}
     = (Raise EOFError,
        {| stdin := [];
           shown := seen ++ concat (map (turn_shown prompt check) bad)
                         ++ [Printed prompt] |}).
Proof.
  intros Hbad. unfold prompt_loop. cbn [stdin shown]. split.
  - intros l a Hl. rewrite prompt_lines_app by exact Hbad.
    cbn [prompt_lines]. rewrite Hl, <- app_assoc. reflexivity.
  - rewrite <- (app_nil_r bad) at 1. rewrite prompt_lines_app by exact Hbad.
    cbn [prompt_lines]. rewrite <- app_assoc. reflexivity.
Qed.

End PromptFacts.

Section DialogueFacts.

Variable strip : string -> string.
Variable py_float : string -> option pyfloat.

Lemma check_address_accept (l a : string) :
  check_address strip l = Accept a -> a <> "".
Proof.
  unfold check_address. destruct (String.eqb (strip l) "") eqn:E; cbn [negb]; [discriminate|].
  intros [= <-]. apply String.eqb_neq, E.
Qed.

Lemma check_radius_accept (l : string) (r : pyfloat) :
  check_radius strip py_float l = Accept r -> positive r = true.
Proof.
  unfold check_radius. destruct (py_float (strip l)) as [x|]; [|discriminate].
  destruct (positive x) eqn:E; [|discriminate]. intros [= <-]. exact E.
Qed.

Lemma check_data_type_accept (l d : string) :
  check_data_type strip l = Accept d -> d = "traffic" \/ d = "pedestrian".
Proof.
  unfold check_data_type. destruct (one_of (strip l) ["1"; "2"]); [|discriminate].
  intros [= <-]. destruct (String.eqb (strip l) "1"); auto.
Qed.

Lemma check_output_format_accept (l f : string) :
  check_output_format strip l = Accept f -> f = "1" \/ f = "2" \/ f = "3".
Proof.
  unfold check_output_format, one_of. cbn [existsb].
  destruct (String.eqb (strip l) "1") eqn:E1;
    [apply String.eqb_eq in E1; intros [= <-]; auto|].
  destruct (String.eqb (strip l) "2") eqn:E2;
    [apply String.eqb_eq in E2; intros [= <-]; auto|].
  destruct (String.eqb (strip l) "3") eqn:E3;
    [apply String.eqb_eq in E3; intros [= <-]; auto|].
  discriminate.
Qed.

Local Ltac ask H t :=
  match type of H with
  | context [prompt_loop ?p ?c ?t0] =>
      destruct (prompt_loop p c t0) as [[?a|?e] t] eqn:?Hq in H
  end.

(** X24. Whatever is typed, what [get_user_input] returns is fit for the
    rest of the program: an address that is not empty, a radius above
    zero, one of the two data types, one of the three formats, and a
    path that is absent rather than empty.  At least five lines were
    read, and every line read and set aside was rejected by a check. *)
Theorem get_user_input_valid (t t' : Tty) (a : Answers) :
  get_user_input strip py_float t = (Ok a, t') ->
  ans_address a <> ""
  /\ positive (ans_radius a) = true
  /\ (ans_data_type a = "traffic" \/ ans_data_type a = "pedestrian")
  /\ (ans_output_format a = "1" \/ ans_output_format a = "2"
      \/ ans_output_format a = "3")
  /\ ans_export_path a <> Some ""
  /\ exists used, stdin t = (used ++ stdin t')%list /\ (5 <= length used)%nat.
Proof.
  unfold get_user_input. intros H.
  ask H t1; [|discriminate].
  ask H t2; [|discriminate].
  ask H t3; [|discriminate].
  ask H t4; [|discriminate].
  destruct (stdin t4) as [|line rest] eqn:Ht4; [discriminate|].
  injection H as <- <-. cbn [ans_address ans_radius ans_data_type ans_output_format
                            ans_export_path stdin].
  unfold prompt_loop in *.
  apply prompt_lines_ok in Hq as (b1 & l1 & E1 & _ & A1).
  apply prompt_lines_ok in Hq0 as (b2 & l2 & E2 & _ & A2).
  apply prompt_lines_ok in Hq1 as (b3 & l3 & E3 & _ & A3).
  apply prompt_lines_ok in Hq2 as (b4 & l4 & E4 & _ & A4).
  cbn [stdin] in E1.
  repeat split.
  - eapply check_address_accept, A1.
  - eapply check_radius_accept, A2.
  - eapply check_data_type_accept, A3.
  - eapply check_output_format_accept, A4.
  - destruct (String.eqb (strip line) "") eqn:E; [discriminate|].
    intros [= E']. rewrite E' in E. discriminate.
  - exists (b1 ++ l1 :: b2 ++ l2 :: b3 ++ l3 :: b4 ++ [l4; line])%list. split.
    + rewrite E1, E2, E3, E4, Ht4.
      repeat (rewrite <- ?app_assoc; cbn [app]). reflexivity.
    + repeat (rewrite ?length_app; cbn [length]). lia.
Qed.

(** X25. [get_user_input] raises nothing but the EOFError of [input]: a
    radius that is not a number, or any other bad line, is asked again. *)
Theorem get_user_input_raises_only_eof (t t' : Tty) (e : exn) :
  get_user_input strip py_float t = (Raise e, t') ->
  e = EOFError /\ stdin t' = [].
Proof.
  unfold get_user_input. intros H.
  ask H t1; [|injection H as <- <-; unfold prompt_loop in *;
               apply prompt_lines_raise in Hq as (? & ? & _); auto].
  ask H t2; [|injection H as <- <-; unfold prompt_loop in *;
               apply prompt_lines_raise in Hq0 as (? & ? & _); auto].
  ask H t3; [|injection H as <- <-; unfold prompt_loop in *;
               apply prompt_lines_raise in Hq1 as (? & ? & _); auto].
  ask H t4; [|injection H as <- <-; unfold prompt_loop in *;
               apply prompt_lines_raise in Hq2 as (? & ? & _); auto].
  destruct (stdin t4) as [|line rest] eqn:Ht4; [|discriminate].
  injection H as <- <-. auto.
Qed.

End DialogueFacts.


Local Open Scope list_scope.

(** ** The theorems at work *)

Lemma spatial_filters_compose_witness :
  spatial_filter vertex_in_disk
    (spatial_filter vertex_in_disk (streets (Some wgs84)) outer_disk) inner_disk
  = spatial_filter vertex_in_disk (streets (Some wgs84)) inner_disk
  /\ sublist (rows (spatial_filter vertex_in_disk (streets (Some wgs84)) inner_disk))
       (rows (spatial_filter vertex_in_disk (streets (Some wgs84)) outer_disk)).
Proof.
  apply (proj2 (spatial_filters_compose vertex_in_disk (streets (Some wgs84))
                  inner_disk outer_disk)).
  intros g H. unfold vertex_in_disk in *.
  apply existsb_exists in H as (p & Hp & Hle). apply existsb_exists.
  exists p. split; [exact Hp|].
  apply Qle_bool_iff in Hle. apply Qle_bool_iff.
  eapply Qle_trans; [exact Hle|]. vm_compute. discriminate.
Defined.

Lemma export_to_html_idempotent_witness :
  heap (snd (export_to_html plain_str no_fault 0 "again.html"
               (snd (export_to_html plain_str no_fault 0 "map.html"
                       (fresh_state (streets (Some wgs84)))))))
  = heap (snd (export_to_html plain_str no_fault 0 "map.html"
                 (fresh_state (streets (Some wgs84))))).
Proof.
  exact (proj1 (export_to_html_idempotent plain_str no_fault 0%nat "map.html"
                  "again.html" (fresh_state (streets (Some wgs84)))
                  (streets (Some wgs84)) eq_refl (fun t => eq_refl))).
Defined.

Lemma export_to_html_serialisable_witness :
  exists frame',
    heap (snd (export_to_html plain_str no_fault 0 "map.html"
                 (fresh_state (streets (Some wgs84))))) !! 0%nat = Some frame'
    /\ map fst (dtypes frame') = ["name"; "modified"]
    /\ Forall (fun c => String.prefix "datetime" (snd c) = false) (dtypes frame').
Proof.
  destruct (export_to_html_serialisable plain_str no_fault 0%nat "map.html"
              (fresh_state (streets (Some wgs84))) (streets (Some wgs84)) eq_refl)
    as (frame' & H1 & H2 & _ & H3 & _).
  exists frame'. split; [exact H1|]. split; [exact H2|exact H3].
Defined.

Lemma export_to_html_outcome_witness :
  fst (export_to_html plain_str read_only_disk 0 "map.html"
         (fresh_state (streets (Some wgs84))))
  = Raise (Exn "PermissionError" "Permission denied")
  /\ out (snd (export_to_html plain_str read_only_disk 0 "map.html"
                 (fresh_state (streets (Some wgs84))))) = [].
Proof.
  exact (export_to_html_outcome plain_str read_only_disk 0%nat "map.html"
           (fresh_state (streets (Some wgs84))) (streets (Some wgs84)) eq_refl).
Defined.

Lemma export_to_svg_nothing_drawable_witness :
  export_to_svg area_centroid plain_str no_fault 0 "map.svg" "traffic"
    (fresh_state landmarks)
  = (Ok tt,
     {| heap := [landmarks; keep_drawable landmarks];
        out := [Printed "No valid line or polygon data, cannot generate SVG."];
        local_gdf := 1 |}).
Proof.
  exact (export_to_svg_nothing_drawable area_centroid plain_str no_fault 0%nat
           "map.svg" "traffic" (fresh_state landmarks) landmarks
           eq_refl eq_refl eq_refl).
Defined.

Lemma export_to_svg_spares_caller_witness :
  heap (snd (export_to_svg area_centroid plain_str unwritable_svg 0 "map.svg"
               "pedestrian" (fresh_state blocks))) !! 0%nat
  = Some blocks.
Proof.
  exact (export_to_svg_spares_caller area_centroid plain_str unwritable_svg 0%nat
           "map.svg" "pedestrian" (fresh_state blocks) blocks eq_refl eq_refl
           0%nat (le_n 1)).
Defined.

Lemma export_to_svg_early_failure_witness :
  export_to_svg area_centroid plain_str broken_filter 0 "map.svg" "traffic"
    (fresh_state (streets (Some wgs84)))
  = (Ok tt,
     {| heap := [stringified plain_str (streets (Some wgs84))];
        out := [Printed "Warning: Error generating SVG file: No geometry data set yet";
                Printed "Will use HTML format instead.";
                HtmlSaved "map.html" (stringified plain_str (streets (Some wgs84)));
                BrowserOpened "file://map.html"];
        local_gdf := 0 |}).
Proof.
  exact (export_to_svg_early_failure area_centroid plain_str broken_filter 0%nat
           "map.svg" "traffic" (fresh_state (streets (Some wgs84)))
           (streets (Some wgs84)) _ eq_refl eq_refl eq_refl).
Defined.

Lemma export_to_svg_raises_only_at_html_save_witness :
  fst (export_to_svg area_centroid plain_str unwritable_svg 0 "map.svg" "traffic"
         (fresh_state (streets (Some wgs84)))) = Ok tt.
Proof.
  exact (proj1 (export_to_svg_raises_only_at_html_save area_centroid plain_str
                  unwritable_svg 0%nat "map.svg" "traffic"
                  (fresh_state (streets (Some wgs84))) (streets (Some wgs84))
                  eq_refl) eq_refl).
Defined.

Lemma export_to_svg_lines_witness :
  html_exports
    (out (snd (export_to_svg area_centroid plain_str unwritable_svg 0 "map.svg"
                 "traffic" (fresh_state (streets (Some wgs84))))))
  = [("map.html", stringified plain_str (keep_drawable (streets (Some wgs84))))].
Proof.
  rewrite (export_to_svg_lines area_centroid plain_str unwritable_svg 0%nat "map.svg"
             "traffic" (fresh_state (streets (Some wgs84))) (streets (Some wgs84))
             eq_refl).
  - reflexivity.
  - intros [] H; try reflexivity. contradiction H. reflexivity.
  - reflexivity.
  - reflexivity.
  - reflexivity.
Defined.

Lemma placement_similarity_witness :
  (0 < canvas_scale (mkBox 0 0 2 1))%Q
  /\ (dist2 (placement (Some (mkBox 0 0 2 1)) (0, 0))
            (placement (Some (mkBox 0 0 2 1)) (2, 1))
      == canvas_scale (mkBox 0 0 2 1) * canvas_scale (mkBox 0 0 2 1)
         * dist2 (0, 0) (2, 1))%Q.
Proof.
  pose proof (placement_similarity diagonal (mkBox 0 0 2 1) eq_refl eq_refl) as H.
  split; [exact (proj1 H)|]. exact (proj1 (proj2 H (0, 0)%Q (2, 1)%Q)).
Defined.

Lemma spacing_dilates_layout_witness :
  same_point
    (global_centroid area_centroid (spread_blocks area_centroid 0.2 (shapes blocks)))
    (global_centroid area_centroid (shapes blocks))
  /\ length (spread_blocks area_centroid 0.2 (shapes blocks)) = 2%nat.
Proof.
  assert (forall g, In g (shapes blocks) ->
            let dx := ((fst (area_centroid g)
                        - fst (global_centroid area_centroid (shapes blocks))) * 0.2)%Q in
            let dy := ((snd (area_centroid g)
                        - snd (global_centroid area_centroid (shapes blocks))) * 0.2)%Q in
            same_point (area_centroid (translate g dx dy))
                       (shift dx dy (area_centroid g))) as H.
  { intros g Hg. cbv zeta.
    destruct Hg as [<-|[<-|[]]]; split; vm_compute; reflexivity. }
  pose proof (spacing_dilates_layout area_centroid 0.2 (shapes blocks)
                ltac:(discriminate) H) as (H1 & H2 & _).
  split; [exact H1|exact H2].
Defined.

Lemma fallback_path_by_extension_witness :
  str_replace ".svg" ".html" "streets" = "streets"
  /\ str_replace ".svg" ".html" "streets.svg" = "streets.html".
Proof.
  split.
  - exact (proj1 (fallback_path_by_extension "streets") eq_refl).
  - exact (proj2 (fallback_path_by_extension "streets.svg") "streets" eq_refl
             eq_refl).
Defined.

Lemma prompt_loop_retries_witness :
  prompt_loop "Radius: " (check_radius typed_clean float_of)
    {| stdin := ["abc"; "0"; "nan"]; shown := [] |}
  = (Raise EOFError,
     {| stdin := [];
        shown := [Printed "Radius: "; Printed "Please enter a valid number!";
                  Printed "Radius: ";
                  Printed "Radius must be greater than 0, please re-enter!";
                  Printed "Radius: ";
                  Printed "Radius must be greater than 0, please re-enter!";
                  Printed "Radius: "] |}).
Proof.
  refine (proj2 (prompt_loop_retries "Radius: " (check_radius typed_clean float_of)
                   ["abc"; "0"; "nan"] [] [] _)).
  repeat constructor; eexists; reflexivity.
Defined.

Lemma get_user_input_valid_witness :
  "350 5th Ave" <> ""
  /\ positive (Finite 0.5) = true
  /\ ("pedestrian" = "traffic" \/ "pedestrian" = "pedestrian")
  /\ ("1" = "1" \/ "1" = "2" \/ "1" = "3")
  /\ @None string <> Some ""
  /\ exists used, stdin session = used ++ [] /\ (5 <= length used)%nat.
Proof.
  exact (get_user_input_valid typed_clean float_of session
           (snd (get_user_input typed_clean float_of session))
           (mkAnswers "350 5th Ave" (Finite 0.5) "pedestrian" "1" None)
           eq_refl).
Defined.

Lemma get_user_input_raises_only_eof_witness :
  EOFError = EOFError
  /\ stdin (snd (get_user_input typed_clean float_of hung_up)) = [].
Proof.
  exact (get_user_input_raises_only_eof typed_clean float_of hung_up
           (snd (get_user_input typed_clean float_of hung_up)) EOFError eq_refl).
Defined.

Lemma main_turn_writes_nothing_witness :
  main_turn disk disk_buffer vertex_in_disk area_centroid plain_str no_fault
    (fun _ => false) (toy_world None) "350 5th Ave" 1 "traffic" "3" None
    (fresh_state blocks)
  = (Ok tt,
     {| heap := [blocks]; out := [Printed "Error: Invalid projection"];
        local_gdf := 0 |}).
Proof.
  exact (proj1 (main_turn_writes_nothing disk_buffer vertex_in_disk area_centroid
                  plain_str no_fault (fun _ => false) (toy_world None)
                  "350 5th Ave" 1 "traffic" "3" None (fresh_state blocks))
           _ eq_refl).
Defined.
